(** * harmony-microservice: the hub bridge, embedded and verified

    A shallow embedding of [src/index.js] (the [HarmonyHost] class and
    [getCommandsFromControlGroup]) together with the functions of the two
    other revisions of that file ([src/unnamed/part_000] and
    [src/unnamed/part_001]) that differ from it.

    Conventions of the embedding:
    - JavaScript objects used as dictionaries are lists of own properties
      kept in [Object.keys] order (array-index keys ascending, then the
      other keys in insertion order).  Reading [o[k]] also sees the
      members every plain object inherits from [Object.prototype]
      ([js_get]); the keys the code assigns are ids, names and slugs of
      the hub's catalog, and an assignment to the key [__proto__] is
      outside the model;
    - an [async] function is a computation in the monad [M]: it reads the
      answers of the hub from an oracle, logs every RPC it issues, and
      ends fulfilled ([Ok]), rejected ([Throw]) or never settled
      ([Pending]);
    - one handler or one poll iteration runs without another one
      interleaved at its suspension points. *)

From Stdlib Require Import String Ascii List Bool Arith NArith Lia.
Import ListNotations.

Open Scope list_scope.
Open Scope string_scope.

(* ================================================================== *)
(** * JavaScript strings *)

(** [s.replace(/:/g, '::')] *)
Fixpoint escape_colons (s : string) : string :=
  match s with
  | EmptyString => EmptyString
  | String c s' =>
      if Ascii.eqb c ":" then String ":" (String ":" (escape_colons s'))
      else String c (escape_colons s')
  end.

(** A token has no unescaped delimiter when every maximal run of [':']
    in it has even length.  [odd] tells whether the run being read has an
    odd number of colons so far. *)
Fixpoint colons_paired_from (odd : bool) (s : string) : bool :=
  match s with
  | EmptyString => negb odd
  | String c s' =>
      if Ascii.eqb c ":" then colons_paired_from (negb odd) s'
      else negb odd && colons_paired_from false s'
  end.

Definition colons_paired (s : string) : bool := colons_paired_from false s.

(** The hub's reading of a token: [s.replace(/::/g, ':')]. *)
Fixpoint unescape_colons (s : string) : string :=
  match s with
  | EmptyString => EmptyString
  | String c s' =>
      if Ascii.eqb c ":" then
        match s' with
        | String c' s'' =>
            if Ascii.eqb c' ":" then String ":" (unescape_colons s'')
            else String c (unescape_colons s')
        | EmptyString => String c EmptyString
        end
      else String c (unescape_colons s')
  end.

Fixpoint count_colons (s : string) : nat :=
  match s with
  | EmptyString => 0
  | String c s' => (if Ascii.eqb c ":" then 1 else 0) + count_colons s'
  end.

(** The words of the specification, "each [':'] of the raw catalog
    action has been doubled to ['::'] exactly once": [token] reads as
    [raw] does, character by character, but for two colons where [raw]
    has one. *)
Fixpoint doubled_once (raw token : string) : bool :=
  match raw, token with
  | EmptyString, EmptyString => true
  | String c raw', String d token' =>
      if Ascii.eqb c ":" then
        match token' with
        | String d' token'' =>
            Ascii.eqb d ":" && Ascii.eqb d' ":" && doubled_once raw' token''
        | EmptyString => false
        end
      else Ascii.eqb d c && doubled_once raw' token'
  | _, _ => false
  end.

(** [s.endsWith(suffix)] *)
Definition endsWith (s suffix : string) : bool :=
  let n := String.length s in
  let m := String.length suffix in
  Nat.leb m n && String.eqb (substring (n - m) m s) suffix.

(** [s.split(sep)] for a one-character separator. *)
Fixpoint split (sep : ascii) (s : string) : list string :=
  match s with
  | EmptyString => [""]
  | String c s' =>
      if Ascii.eqb c sep then "" :: split sep s'
      else match split sep s' with
           | p :: ps => String c p :: ps
           | [] => [String c ""]
           end
  end.

(** ['' + v] for a value that is a string or [null]. *)
Definition string_of_nullable (v : option string) : string :=
  match v with Some s => s | None => "null" end.

(** The property key [parts[i]] denotes when used as [obj[parts[i]]]:
    a missing element is [undefined], whose key is ["undefined"]. *)
Definition key_of_optional (v : option string) : string :=
  match v with Some s => s | None => "undefined" end.

(** [!v] for a value that is a string or [null]. *)
Definition falsy (v : option string) : bool :=
  match v with Some s => String.eqb s "" | None => true end.

(** What [findAction] returns: an action token, [null] or [undefined]. *)
Inductive action :=
| Action (token : string)
| NullAction
| UndefinedAction.

(** ['' + action] *)
Definition string_of_action (a : action) : string :=
  match a with
  | Action token => token
  | NullAction => "null"
  | UndefinedAction => "undefined"
  end.

(** [!action] *)
Definition falsy_action (a : action) : bool :=
  match a with
  | Action token => String.eqb token ""
  | NullAction | UndefinedAction => true
  end.

(** [a === b] on values that are strings, [null] or [undefined]. *)
Definition strict_eq (a b : option string) : bool :=
  match a, b with
  | Some x, Some y => String.eqb x y
  | None, None => true
  | _, _ => false
  end.

(* ================================================================== *)
(** * JavaScript objects used as dictionaries *)

(** Own properties, in the order [Object.keys] lists them. *)
Definition jsobj (V : Type) := list (string * V).

Definition digit_of (c : ascii) : option N :=
  let n := N_of_ascii c in
  if ((48 <=? n) && (n <=? 57))%N then Some (n - 48)%N else None.

Fixpoint digits_value (s : string) (acc : N) : option N :=
  match s with
  | EmptyString => Some acc
  | String c s' =>
      match digit_of c with
      | Some d => digits_value s' (10 * acc + d)%N
      | None => None
      end
  end.

(** A key is an array index when it is the canonical decimal form of an
    integer below [2^32 - 1]; such keys are enumerated first, ascending. *)
Definition array_index (k : string) : option N :=
  match k with
  | EmptyString => None
  | String c rest =>
      if Ascii.eqb c "0" && negb (String.eqb rest "") then None
      else match digits_value k 0 with
           | Some n => if (n <? 4294967295)%N then Some n else None
           | None => None
           end
  end.

Section Objects.
Context {V : Type}.

(** [o[k]] *)
Fixpoint obj_get (o : jsobj V) (k : string) : option V :=
  match o with
  | [] => None
  | (k', v) :: o' => if String.eqb k' k then Some v else obj_get o' k
  end.

Fixpoint obj_replace (k : string) (v : V) (o : jsobj V) : jsobj V :=
  match o with
  | [] => []
  | (k', v') :: o' =>
      if String.eqb k' k then (k', v) :: o'
      else (k', v') :: obj_replace k v o'
  end.

Fixpoint obj_insert_index (n : N) (k : string) (v : V) (o : jsobj V)
  : jsobj V :=
  match o with
  | [] => [(k, v)]
  | (k', v') :: o' =>
      match array_index k' with
      | Some m =>
          if (m <? n)%N then (k', v') :: obj_insert_index n k v o'
          else (k, v) :: o
      | None => (k, v) :: o
      end
  end.

(** [o[k] = v]: an existing property keeps its place; a new array
    index goes to its numeric place, any other new key to the end. *)
Definition obj_set (k : string) (v : V) (o : jsobj V) : jsobj V :=
  match obj_get o k with
  | Some _ => obj_replace k v o
  | None =>
      match array_index k with
      | Some n => obj_insert_index n k v o
      | None => (o ++ [(k, v)])%list
      end
  end.

(** [Object.keys(o)] *)
Definition obj_keys (o : jsobj V) : list string := map fst o.

(** [for (const key of keys) if (test(o[key])) return ...]: the first
    key, in enumeration order, whose property passes the test. *)
Fixpoint scan_keys (test : V -> bool) (o : jsobj V) (keys : list string)
  : option (string * V) :=
  match keys with
  | [] => None
  | key :: keys' =>
      match obj_get o key with
      | Some v => if test v then Some (key, v) else scan_keys test o keys'
      | None => scan_keys test o keys'
      end
  end.
End Objects.

(** The names of the members of [Object.prototype], which every object
    made by [{}] inherits; each is a function or an object, so truthy. *)
Definition inherited_names : list string :=
  ["constructor"; "__defineGetter__"; "__defineSetter__"; "hasOwnProperty";
   "__lookupGetter__"; "__lookupSetter__"; "isPrototypeOf";
   "propertyIsEnumerable"; "toString"; "valueOf"; "__proto__";
   "toLocaleString"].

Definition inherited_name (k : string) : bool :=
  existsb (String.eqb k) inherited_names.

(** What reading [o[k]] gives: an own property, a member inherited from
    [Object.prototype] (none of which has a property the code reads), or
    [undefined]. *)
Inductive property (V : Type) :=
| Own (v : V)
| Inherited
| Missing.
Arguments Own {V} v.
Arguments Inherited {V}.
Arguments Missing {V}.

(** [o[k]], read from a plain object. *)
Definition js_get {V} (o : jsobj V) (k : string) : property V :=
  match obj_get o k with
  | Some v => Own v
  | None => if inherited_name k then Inherited else Missing
  end.

(** [if (p)]: only [undefined] is falsy. *)
Definition truthy {V} (p : property V) : bool :=
  match p with
  | Missing => false
  | Own _ | Inherited => true
  end.

(** The own property that was read, if it was one. *)
Definition own {V} (p : property V) : option V :=
  match p with
  | Own v => Some v
  | Inherited | Missing => None
  end.

(* ================================================================== *)
(** * Data model *)

(** A function entry of a control group, as the hub's catalog gives it;
    [func_action] is the raw action token. *)
Record Func := {
  func_name : string;
  func_label : string;
  func_action : string
}.

Record ControlGroup := {
  group_name : string;
  group_function : list Func
}.

Record Activity := {
  activity_id : string;
  activity_label : string;
  activity_controlGroup : list ControlGroup
}.

(** An entry of a device's slug-keyed command map:
    [{name, slug, label}] plus the non-enumerable [action]. *)
Record Command := {
  cmd_name : string;
  cmd_slug : string;
  cmd_label : string;
  cmd_action : string
}.

(** A device as [getAvailableCommands] lists it. *)
Record RawDevice := {
  raw_id : string;
  raw_label : string;
  raw_controlGroup : list ControlGroup
}.

(** A device after [getDevices] has added [slug] and [commands]. *)
Record Device := {
  device_id : string;
  device_label : string;
  device_controlGroup : list ControlGroup;
  device_slug : string;
  device_commands : jsobj Command
}.

Record AvailableCommands := {
  catalog_device : list RawDevice;
  catalog_activity : list Activity
}.

(** The live state ([this.state]); a field that was never assigned is
    [None], and so is a [startingActivity] of [null]. *)
Record State := {
  isOff : option bool;
  currentActivity : option string;
  startingActivity : option string;
  commands : option (jsobj Func);
  state_availableCommands : option AvailableCommands;
  state_activities : option (jsobj Activity);
  state_devices : option (jsobj Device)
}.

(** One property of an object literal assigned to [this.state]. *)
Inductive field :=
| isOff_is (b : bool)
| currentActivity_is (a : string)
| startingActivity_is (a : option string)
| commands_is (c : jsobj Func)
| availableCommands_is (c : option AvailableCommands)
| activities_is (a : option (jsobj Activity))
| devices_is (d : option (jsobj Device)).

Definition assign_field (s : State) (f : field) : State :=
  match f with
  | isOff_is b =>
      {| isOff := Some b; currentActivity := currentActivity s;
         startingActivity := startingActivity s; commands := commands s;
         state_availableCommands := state_availableCommands s;
         state_activities := state_activities s;
         state_devices := state_devices s |}
  | currentActivity_is a =>
      {| isOff := isOff s; currentActivity := Some a;
         startingActivity := startingActivity s; commands := commands s;
         state_availableCommands := state_availableCommands s;
         state_activities := state_activities s;
         state_devices := state_devices s |}
  | startingActivity_is a =>
      {| isOff := isOff s; currentActivity := currentActivity s;
         startingActivity := a; commands := commands s;
         state_availableCommands := state_availableCommands s;
         state_activities := state_activities s;
         state_devices := state_devices s |}
  | commands_is c =>
      {| isOff := isOff s; currentActivity := currentActivity s;
         startingActivity := startingActivity s; commands := Some c;
         state_availableCommands := state_availableCommands s;
         state_activities := state_activities s;
         state_devices := state_devices s |}
  | availableCommands_is c =>
      {| isOff := isOff s; currentActivity := currentActivity s;
         startingActivity := startingActivity s; commands := commands s;
         state_availableCommands := c;
         state_activities := state_activities s;
         state_devices := state_devices s |}
  | activities_is a =>
      {| isOff := isOff s; currentActivity := currentActivity s;
         startingActivity := startingActivity s; commands := commands s;
         state_availableCommands := state_availableCommands s;
         state_activities := a;
         state_devices := state_devices s |}
  | devices_is d =>
      {| isOff := isOff s; currentActivity := currentActivity s;
         startingActivity := startingActivity s; commands := commands s;
         state_availableCommands := state_availableCommands s;
         state_activities := state_activities s;
         state_devices := d |}
  end.

(** Modelled from the spec: the [state] setter of [HostBase]
    (microservice-core, not under src/).  The spec calls it "in-place
    field merging of LiveState": the fields of the assigned literal
    replace the fields of the same name and every other field stays. *)
Definition merge_state (s : State) (literal : list field) : State :=
  fold_left assign_field literal s.

(** The fields of a [HarmonyHost] instance the core reads and writes. *)
Record Host := {
  availableCommands : option AvailableCommands;
  devices : option (jsobj Device);
  deviceSlugs : option (jsobj Device);
  activities : option (jsobj Activity);
  state : State
}.

(** [this.state] as the constructor of index.js and part_001 leaves it. *)
Definition initial_state : State :=
  {| isOff := None; currentActivity := None; startingActivity := None;
     commands := None; state_availableCommands := None;
     state_activities := None; state_devices := None |}.

Definition new_host : Host :=
  {| availableCommands := None; devices := None; deviceSlugs := None;
     activities := None; state := initial_state |}.

(* ================================================================== *)
(** * The hub collaborator and the monad of asynchronous code *)

Inductive exn :=
| Error (message : string)
| TypeError (message : string).

Inductive result (A : Type) :=
| Ok (a : A)
| Throw (e : exn).
Arguments Ok {A} a.
Arguments Throw {A} e.

(** What an [async] function of the host resolves with. *)
Inductive value :=
| Undefined
| ErrorObject (message : string)
| HubValue (v : string).

(** An RPC issued on [this.harmonyClient]. *)
Inductive hub_call :=
| GetAvailableCommands
| GetActivities
| GetCurrentActivity
| IsOff
| StartActivity (id : string)
| Send (command body : string).

(** The hub as an oracle: how it answers each kind of RPC, given the
    number of RPCs it has received before. *)
Record Hub := {
  answer_getAvailableCommands : nat -> result AvailableCommands;
  answer_getActivities : nat -> result (list Activity);
  answer_getCurrentActivity : nat -> result string;
  answer_isOff : nat -> result bool;
  answer_startActivity : nat -> string -> result value;
  answer_send : nat -> string -> string -> result unit
}.

(** Everything a run can change: the host object, the log of RPCs, the
    snapshots passed to the calls of [this.publish()] the source makes
    (what the [state] setter publishes on its own is not recorded), and
    the rejections nobody observes (promises that are neither awaited
    nor returned). *)
Record World := {
  this : Host;
  rpcs : list hub_call;
  published : list State;
  unhandled : list exn
}.

(** How the promise of an [async] function ends: settled, that is
    fulfilled ([Ok]) or rejected ([Throw]), or never settled.  The hub's
    answers are always settled. *)
Inductive outcome (A : Type) :=
| Settled (r : result A)
| Pending.
Arguments Settled {A} r.
Arguments Pending {A}.
Coercion Settled : result >-> outcome.
Arguments pair {A B} & a b.

Definition M (A : Type) : Type := Hub -> World -> outcome A * World.

Definition ret {A} (a : A) : M A := fun _ w => (Ok a, w).

(** [await m] and what follows: nothing follows a promise that never
    settles. *)
Definition bind {A B} (m : M A) (k : A -> M B) : M B :=
  fun hub w =>
    match m hub w with
    | (Ok a, w') => k a hub w'
    | (Throw e, w') => (Throw e, w')
    | (Pending, w') => (Pending, w')
    end.

Definition throw {A} (e : exn) : M A := fun _ w => (Throw e, w).

(** A synchronous call that returns or throws. *)
Definition of_result {A} (r : result A) : M A := fun _ w => (r, w).

(** A promise nobody resolves or rejects. *)
Definition never_settles {A} : M A := fun _ w => (Pending, w).

(** [try { body } catch (e) { handler }] *)
Definition try_catch {A} (body : M A) (handler : exn -> M A) : M A :=
  fun hub w =>
    match body hub w with
    | (Ok a, w') => (Ok a, w')
    | (Throw e, w') => handler e hub w'
    | (Pending, w') => (Pending, w')
    end.

Declare Scope async_scope.
Delimit Scope async_scope with async.
Notation "x <- m ;; k" := (bind m (fun x => k))
  (at level 100, m at next level, right associativity) : async_scope.
Notation "m ;; k" := (bind m (fun _ => k))
  (at level 100, right associativity) : async_scope.
Open Scope async_scope.

Definition with_this (f : Host -> Host) : M unit :=
  fun _ w =>
    (Ok tt, {| this := f (this w); rpcs := rpcs w;
               published := published w; unhandled := unhandled w |}).

Definition get_this : M Host := fun _ w => (Ok (this w), w).

(** [this.state] *)
Definition get_state : M State := fun _ w => (Ok (state (this w)), w).

(** [this.state = { ... }] *)
Definition set_state (literal : list field) : M unit :=
  with_this (fun h =>
    {| availableCommands := availableCommands h; devices := devices h;
       deviceSlugs := deviceSlugs h; activities := activities h;
       state := merge_state (state h) literal |}).

Definition set_availableCommands (c : AvailableCommands) : M unit :=
  with_this (fun h =>
    {| availableCommands := Some c; devices := devices h;
       deviceSlugs := deviceSlugs h; activities := activities h;
       state := state h |}).

Definition set_devices (d : jsobj Device) : M unit :=
  with_this (fun h =>
    {| availableCommands := availableCommands h; devices := Some d;
       deviceSlugs := deviceSlugs h; activities := activities h;
       state := state h |}).

Definition set_deviceSlugs (d : jsobj Device) : M unit :=
  with_this (fun h =>
    {| availableCommands := availableCommands h; devices := devices h;
       deviceSlugs := Some d; activities := activities h;
       state := state h |}).

Definition set_activities (a : jsobj Activity) : M unit :=
  with_this (fun h =>
    {| availableCommands := availableCommands h; devices := devices h;
       deviceSlugs := deviceSlugs h; activities := Some a;
       state := state h |}).

(** [await this.harmonyClient.<call>]: the call is logged and the hub's
    answer decides between a value and a rejection. *)
Definition rpc {A} (c : hub_call) (answer : Hub -> nat -> result A) : M A :=
  fun hub w =>
    (answer hub (List.length (rpcs w)),
     {| this := this w; rpcs := (rpcs w ++ [c])%list;
        published := published w; unhandled := unhandled w |}).

(** A call issued on the hub whose answer has not arrived yet. *)
Definition rpc_in_flight (c : hub_call) : M unit :=
  fun _ w =>
    (Ok tt, {| this := this w; rpcs := (rpcs w ++ [c])%list;
               published := published w; unhandled := unhandled w |}).

(** Modelled from the spec: [this.publish()] of [HostBase]
    (microservice-core, not under src/); "publish the full LiveState
    object". *)
Definition publish : M unit :=
  fun _ w =>
    (Ok tt, {| this := this w; rpcs := rpcs w;
               published := (published w ++ [state (this w)])%list;
               unhandled := unhandled w |}).

(** A rejected promise that is neither awaited nor returned. *)
Definition reject_unobserved (e : exn) : M unit :=
  fun _ w =>
    (Ok tt, {| this := this w; rpcs := rpcs w; published := published w;
               unhandled := (unhandled w ++ [e])%list |}).

(** A call of an [async] function whose promise is dropped: its effects
    happen, its rejection is observed by nobody, and the caller goes on
    whether or not the promise settles. *)
Definition not_awaited {A} (m : M A) : M unit :=
  fun hub w =>
    match m hub w with
    | (Ok _, w') => (Ok tt, w')
    | (Throw e, w') => reject_unobserved e hub w'
    | (Pending, w') => (Ok tt, w')
    end.

(** Modelled from the spec: [this.wait(ms)] of [HostBase]
    (microservice-core, not under src/), the "fixed inter-poll delay";
    time is not modelled. *)
Definition wait (ms : nat) : M unit := ret tt.

Definition POLL_TIME : nat := 100.

(* ================================================================== *)
(** * The command index of a device (all three revisions) *)

Section Catalog.
(** [parameterize] is the slug function of the npm package of that
    name; the development holds for any such function. *)
Variable parameterize : string -> string.

(** The entry stored under a function's slug. *)
Definition command_of_func (func : Func) : Command :=
  {| cmd_name := func_name func;
     cmd_slug := parameterize (func_label func);
     cmd_label := func_label func;
     cmd_action := escape_colons (func_action func) |}.

(** [deviceCommands[slug] = {...}] for one function. *)
Definition add_command (deviceCommands : jsobj Command) (func : Func)
  : jsobj Command :=
  obj_set (parameterize (func_label func)) (command_of_func func)
          deviceCommands.

(** The callbacks given to [some] return nothing, so both loops visit
    every element, in order. *)
Definition getCommandsFromControlGroup (controlGroup : list ControlGroup)
  : jsobj Command :=
  fold_left
    (fun deviceCommands group =>
       fold_left add_command (group_function group) deviceCommands)
    controlGroup [].

(** A catalog device once [getDevices] has given it [slug] and
    [commands]. *)
Definition device_of (raw : RawDevice) : Device :=
  {| device_id := raw_id raw;
     device_label := raw_label raw;
     device_controlGroup := raw_controlGroup raw;
     device_slug := parameterize (raw_label raw);
     device_commands :=
       getCommandsFromControlGroup (raw_controlGroup raw) |}.

(** The body of the [forEach] of [getDevices]: the device is stored
    under its id and under its slug. *)
Definition index_device (maps : jsobj Device * jsobj Device)
           (raw : RawDevice) : jsobj Device * jsobj Device :=
  let device := device_of raw in
  (obj_set (device_id device) device (fst maps),
   obj_set (device_slug device) device (snd maps)).

(** [(devices, slugs)] after the loop over [commands.device]. *)
Definition index_devices (catalog : list RawDevice)
  : jsobj Device * jsobj Device :=
  fold_left index_device catalog ([], []).
End Catalog.

(** All the function entries of a list of control groups, in order. *)
Definition functions_of (controlGroup : list ControlGroup) : list Func :=
  flat_map group_function controlGroup.

(** The two [forEach] loops of [getCommands]: [commands[func.name] =
    func] for every function of every group, in order. *)
Definition flatten_commands (controlGroup : list ControlGroup)
  : jsobj Func :=
  fold_left
    (fun commands group =>
       fold_left
         (fun commands func => obj_set (func_name func) func commands)
         (group_function group) commands)
    controlGroup [].

(** The body shared by [command] and [deviceCommand]: press, then
    release, each awaited; a failure of either rejects. *)
Definition press_and_release (action : string) : M value :=
  try_catch
    (rpc (Send "holdAction" ("action=" ++ action ++ ":status=press"))
         (fun hub n =>
            answer_send hub n "holdAction"
                        ("action=" ++ action ++ ":status=press")) ;;
     rpc (Send "holdAction" ("action=" ++ action ++ ":status=release"))
         (fun hub n =>
            answer_send hub n "holdAction"
                        ("action=" ++ action ++ ":status=release")) ;;
     ret Undefined)
    (fun e => throw e).

(* ================================================================== *)
(** * src/index.js *)

Module Index.

(** [getCommands()]: the name-keyed map of the current activity.
    Reading a property of [undefined] throws: [controlGroup] of a
    missing activity, [forEach] of the [controlGroup] an inherited
    member does not have. *)
Definition getCommands : M (jsobj Func) :=
  s <- get_state ;;
  match state_activities s with
  | None => throw (TypeError "Cannot read property of undefined")
  | Some acts =>
      match js_get acts (key_of_optional (currentActivity s)) with
      | Missing =>
          throw (TypeError "Cannot read property 'controlGroup' of undefined")
      | Inherited =>
          throw (TypeError "Cannot read property 'forEach' of undefined")
      | Own activity =>
          ret (flatten_commands (activity_controlGroup activity))
      end
  end.

(** [findActivity(activity)]; [None] is [null]. *)
Definition findActivity (activity : string) : M (option string) :=
  h <- get_this ;;
  match activities h with
  | None => ret None
  | Some acts =>
      if truthy (js_get acts activity) then ret (Some activity)
      else
        match scan_keys
                (fun a => String.eqb (activity_label a) activity)
                acts (obj_keys acts) with
        | Some (key, _) => ret (Some key)
        | None => ret None
        end
  end.

(** [startActivity(activity)] *)
Definition startActivity (activity : string) : M value :=
  found <- findActivity activity ;;
  if falsy found then ret Undefined
  else
    let activity := string_of_nullable found in
    try_catch
      (set_state [startingActivity_is (Some activity)] ;;
       publish ;;
       r <- rpc (StartActivity activity)
                (fun hub n => answer_startActivity hub n activity) ;;
       set_state [startingActivity_is None] ;;
       publish ;;
       ret r)
      (fun e => throw e).

Definition getCurrentActivity : M string :=
  rpc GetCurrentActivity answer_getCurrentActivity.

(** The body of the [try] block of one iteration of [poll]. *)
Definition poll_body : M unit :=
  s <- get_state ;;
  let starting := startingActivity s in
  current <- getCurrentActivity ;;
  s' <- get_state ;;
  let newActivity := negb (strict_eq (currentActivity s') (Some current)) in
  let newStartingActivity :=
    if strict_eq starting (Some current) then None else starting in
  off <- rpc IsOff answer_isOff ;;
  set_state [isOff_is off; currentActivity_is current;
             startingActivity_is newStartingActivity] ;;
  if newActivity then
    c <- getCommands ;;
    set_state [commands_is c]
  else ret tt.

(** One iteration of the [while (true)] loop. *)
Definition poll_iteration : M unit :=
  try_catch poll_body (fun _ => ret tt) ;;
  wait POLL_TIME.

(** [poll()], cut after [ticks] iterations; it ends with [Throw] when
    an exception leaves the loop. *)
Fixpoint poll (ticks : nat) : M unit :=
  match ticks with
  | O => ret tt
  | S n => poll_iteration ;; poll n
  end.

Definition getActivities : M (jsobj Activity) :=
  try_catch
    (records <- rpc GetActivities answer_getActivities ;;
     ret (fold_left
            (fun acts activity => obj_set (activity_id activity) activity acts)
            records []))
    (fun e => throw e).

Definition getDevices (parameterize : string -> string)
  : M (jsobj Device) :=
  try_catch
    (cmds <- rpc GetAvailableCommands answer_getAvailableCommands ;;
     let maps := index_devices parameterize (catalog_device cmds) in
     set_deviceSlugs (snd maps) ;;
     ret (fst maps))
    (fun e => throw e).

Definition refresh (parameterize : string -> string) : M unit :=
  try_catch
    (c <- rpc GetAvailableCommands answer_getAvailableCommands ;;
     set_availableCommands c ;;
     d <- getDevices parameterize ;;
     set_devices d ;;
     a <- getActivities ;;
     set_activities a)
    (fun e => throw e).

(** [this.poll()] with its promise dropped.  The loop runs up to its
    first [await] before the caller goes on, so that the first
    [getCurrentActivity] is issued by then.  [ticks] is the number of
    iterations the loop has completed when the world is looked at: none,
    and that first call is in flight; or some, and the loop is in the
    wait that follows them. *)
Definition poll_started (ticks : nat) : M unit :=
  match ticks with
  | O => rpc_in_flight GetCurrentActivity
  | S _ => not_awaited (poll ticks)
  end.

(** [connect()] once the hub client exists. *)
Definition connect (parameterize : string -> string) (ticks : nat)
  : M unit :=
  try_catch
    (refresh parameterize ;;
     h <- get_this ;;
     set_state [availableCommands_is (availableCommands h);
                activities_is (activities h);
                devices_is (devices h)] ;;
     poll_started ticks)
    (fun e => throw e).

(** [commands ? commands[command] : null] *)
Definition lookup_control (s : State) (command : string) : property Func :=
  match commands s with
  | Some cs => js_get cs command
  | None => Missing
  end.

(** [command(command)].  For an inherited member [control.action] is
    [undefined]: the executor throws before its [try], the promise of
    the executor is dropped and the promise of [command] is never
    resolved or rejected. *)
Definition command (command : string) : M value :=
  s <- get_state ;;
  match lookup_control s command with
  | Missing => ret (ErrorObject ("Invalid command " ++ command))
  | Inherited =>
      reject_unobserved
        (TypeError "Cannot read property 'replace' of undefined") ;;
      never_settles
  | Own control =>
      press_and_release (escape_colons (func_action control))
  end.

(** [findAction(device, slug)].  An inherited member passes [!device]
    and has no [commands], so that [slugs[slug]] throws; an inherited
    member found in [slugs] has no [action]. *)
Definition findAction (device : property Device) (slug : string)
  : result action :=
  match device with
  | Missing => Ok NullAction
  | Inherited => Throw (TypeError "Cannot read property of undefined")
  | Own device =>
      let slugs := device_commands device in
      match js_get slugs slug with
      | Own c => Ok (Action (cmd_action c))
      | Inherited => Ok UndefinedAction
      | Missing =>
          match scan_keys (fun c => String.eqb (cmd_name c) slug)
                          slugs (obj_keys slugs) with
          | Some (_, c) => Ok (Action (cmd_action c))
          | None => Ok NullAction
          end
      end
  end.

(** The device looked up by [deviceCommand]:
    [this.deviceSlugs[deviceSlug]]. *)
Definition lookup_device (slugs : jsobj Device) (deviceSlug : string)
  : property Device :=
  js_get slugs deviceSlug.

(** [deviceCommand(deviceSlug, command)].  The two [Promise.reject]
    calls make rejected promises and go on. *)
Definition deviceCommand (deviceSlug command : string) : M value :=
  h <- get_this ;;
  match deviceSlugs h with
  | None => throw (TypeError "Cannot read property of undefined")
  | Some slugs =>
      let device := lookup_device slugs deviceSlug in
      action <- of_result (findAction device command) ;;
      (if falsy_action action
       then reject_unobserved (Error ("No such action " ++ command))
       else ret tt) ;;
      (if truthy device then ret tt
       else reject_unobserved (Error ("No such device " ++ deviceSlug))) ;;
      press_and_release (string_of_action action)
  end.

(** The listener of the bus client's ['message'] event. *)
Definition on_message (topic message : string) : M value :=
  if endsWith topic "command" then command message
  else if endsWith topic "activity" then startActivity message
  else
    let parts := split "/" topic in
    match nth_error parts 3 with
    | Some "device" =>
        not_awaited
          (deviceCommand (key_of_optional (nth_error parts 4)) message) ;;
        ret Undefined
    | _ => ret Undefined
    end.

(** The bus client emitting ['message'] for each inbound message in
    turn: the emitter drops the promise the listener returns. *)
Fixpoint deliver (messages : list (string * string)) : M unit :=
  match messages with
  | [] => ret tt
  | (topic, message) :: rest =>
      not_awaited (on_message topic message) ;;
      deliver rest
  end.

End Index.

(* ================================================================== *)
(** * src/unnamed/part_000: the functions that differ *)

Module Part000.

(** One iteration of the [while (1)] loop of [poll]: the current
    activity is taken from [startingActivity] when that is truthy, is
    fetched outside the [try] block otherwise, and the iteration never
    writes [startingActivity]. *)
Definition poll_iteration : M unit :=
  s <- get_state ;;
  let starting := startingActivity s in
  current <- (if falsy starting then Index.getCurrentActivity
              else ret (string_of_nullable starting)) ;;
  s' <- get_state ;;
  let newActivity := negb (strict_eq (currentActivity s') (Some current)) in
  try_catch
    (off <- rpc IsOff answer_isOff ;;
     set_state [isOff_is off; currentActivity_is current] ;;
     if newActivity then
       c <- Index.getCommands ;;
       set_state [commands_is c]
     else ret tt)
    (fun _ => ret tt) ;;
  wait POLL_TIME.

Fixpoint poll (ticks : nat) : M unit :=
  match ticks with
  | O => ret tt
  | S n => poll_iteration ;; poll n
  end.

End Part000.

(* ================================================================== *)
(** * src/unnamed/part_001: the functions that differ *)

Module Part001.

(** The body of the [try] block of one iteration of [poll]: the
    commands are recomputed when the polled activity is the one being
    started. *)
Definition poll_body : M unit :=
  s <- get_state ;;
  let starting := startingActivity s in
  current <- Index.getCurrentActivity ;;
  let arrived := strict_eq starting (Some current) in
  let newStartingActivity := if arrived then None else starting in
  let newActivity := arrived in
  off <- rpc IsOff answer_isOff ;;
  set_state [isOff_is off; currentActivity_is current;
             startingActivity_is newStartingActivity] ;;
  if newActivity then
    c <- Index.getCommands ;;
    set_state [commands_is c]
  else ret tt.

Definition poll_iteration : M unit :=
  try_catch poll_body (fun _ => ret tt) ;;
  wait POLL_TIME.

(** [findAction(device, slug)]: the first statement reads
    [device.commands], which throws when [device] is [undefined]. *)
Definition findAction (device : property Device) (slug : string)
  : M action :=
  match device with
  | Missing => throw (TypeError "Cannot read property 'commands' of undefined")
  | Own _ | Inherited => of_result (Index.findAction device slug)
  end.

(** [a || b] on two lookups. *)
Definition or_else {A} (a b : property A) : property A :=
  if truthy a then a else b.

Section DeviceCommand.
(** [number_key s] is the property key that [Number(s)] denotes,
    [String(Number(s))]. *)
Variable number_key : string -> string.

(** The device looked up by [deviceCommand]. *)
Definition lookup_device (devs : jsobj Device) (deviceSlug : string)
  : property Device :=
  or_else (js_get devs deviceSlug)
          (or_else (js_get devs deviceSlug)
                   (js_get devs (number_key deviceSlug))).

Definition deviceCommand (deviceSlug command : string) : M value :=
  h <- get_this ;;
  match devices h with
  | None => throw (TypeError "Cannot read property of undefined")
  | Some devs =>
      let device := lookup_device devs deviceSlug in
      action <- findAction device command ;;
      (if falsy_action action
       then reject_unobserved (Error ("No such action " ++ command))
       else ret tt) ;;
      (if truthy device then ret tt
       else reject_unobserved (Error ("No such device " ++ deviceSlug))) ;;
      press_and_release (string_of_action action)
  end.

(** The listener of the ['message'] event: the body of index.js
    inside [try { ... } catch (e) { console.log(...) }]. *)
Definition on_message (topic message : string) : M value :=
  try_catch
    (if endsWith topic "command" then Index.command message
     else if endsWith topic "activity" then Index.startActivity message
     else
       let parts := split "/" topic in
       match nth_error parts 3 with
       | Some "device" =>
           not_awaited
             (deviceCommand (key_of_optional (nth_error parts 4))
                            message) ;;
           ret Undefined
       | _ => ret Undefined
       end)
    (fun _ => ret Undefined).

Fixpoint deliver (messages : list (string * string)) : M unit :=
  match messages with
  | [] => ret tt
  | (topic, message) :: rest =>
      not_awaited (on_message topic message) ;;
      deliver rest
  end.
End DeviceCommand.

End Part001.

(* ================================================================== *)
(** * Observations used by the statements *)

(** The hub's answer to the [getCurrentActivity] a tick issues first. *)
Definition polled (hub : Hub) (w : World) : result string :=
  answer_getCurrentActivity hub (List.length (rpcs w)).

(** The hub's answer to the [isOff] the tick issues next. *)
Definition polled_isOff (hub : Hub) (w : World) : result bool :=
  answer_isOff hub (S (List.length (rpcs w))).

(** What [getCommands] computes in state [s] once the current activity
    is [a]; [None] when it throws. *)
Definition recomputed_commands (s : State) (a : string)
  : option (jsobj Func) :=
  match state_activities s with
  | Some acts =>
      match obj_get acts a with
      | Some activity => Some (flatten_commands (activity_controlGroup activity))
      | None => None
      end
  | None => None
  end.

(** The state a tick writes after both fetches have succeeded. *)
Definition polled_state (s : State) (a : string) (off : bool) : State :=
  merge_state s
    [isOff_is off; currentActivity_is a;
     startingActivity_is
       (if strict_eq (startingActivity s) (Some a) then None
        else startingActivity s)].

(** The payload of an activity-start request matches a known activity:
    it is the id or the label of one. *)
Definition matches_activity (acts : jsobj Activity) (payload : string)
  : bool :=
  existsb
    (fun entry =>
       String.eqb (fst entry) payload
       || String.eqb (activity_label (snd entry)) payload)
    acts.

Definition known_activity (h : Host) (payload : string) : bool :=
  match activities h with
  | Some acts => matches_activity acts payload
  | None => false
  end.

(** A later function of the catalog has the slug of [func]. *)
Definition slug_taken_later (parameterize : string -> string)
           (func : Func) (later : list Func) : bool :=
  existsb
    (fun f => String.eqb (parameterize (func_label f))
                         (parameterize (func_label func)))
    later.

(** A later device of the catalog has the slug, or the id, of [raw]. *)
Definition device_slug_taken_later (parameterize : string -> string)
           (raw : RawDevice) (later : list RawDevice) : bool :=
  existsb
    (fun r => String.eqb (parameterize (raw_label r))
                         (parameterize (raw_label raw)))
    later.

Definition device_id_taken_later (raw : RawDevice)
           (later : list RawDevice) : bool :=
  existsb (fun r => String.eqb (raw_id r) (raw_id raw)) later.

(** The topics whose handling the listener awaits. *)
Definition awaited_topic (topic : string) : bool :=
  endsWith topic "command" || endsWith topic "activity".

(** The two hold-action sends that carry [token]. *)
Definition press (token : string) : hub_call :=
  Send "holdAction" ("action=" ++ token ++ ":status=press").

Definition release (token : string) : hub_call :=
  Send "holdAction" ("action=" ++ token ++ ":status=release").

(** The RPC log grew by the sends of one button press with [token]:
    the press, and the release unless the press was rejected. *)
Definition pressed (token : string) (before after : list hub_call) : Prop :=
  after = (before ++ [press token])%list \/
  after = (before ++ [press token; release token])%list.

(** The last element of a list that passes a test. *)
Definition find_last {X} (test : X -> bool) (l : list X) : option X :=
  find test (rev l).

(** The first lookup that hits, in the order given. *)
Fixpoint first_hit {A} (attempts : list (option A)) : option A :=
  match attempts with
  | [] => None
  | Some a :: _ => Some a
  | None :: rest => first_hit rest
  end.

(** The device resolution as the specification words it: the segment
    "tried as slug, then as string key, then as numeric key against the
    device map".  Compared below with what [deviceCommand] does. *)
Definition spec_lookup_device (number_key : string -> string)
           (slugs devs : jsobj Device) (segment : string) : option Device :=
  first_hit [obj_get slugs segment; obj_get devs segment;
             obj_get devs (number_key segment)].

(* ================================================================== *)
(** * A small installation, for examples *)

Module Sample.

Definition lower (c : ascii) : ascii :=
  let n := nat_of_ascii c in
  if Nat.leb 65 n && Nat.leb n 90 then ascii_of_nat (n + 32) else c.

Definition alphanumeric (c : ascii) : bool :=
  let n := nat_of_ascii c in
  (Nat.leb 48 n && Nat.leb n 57) || (Nat.leb 97 n && Nat.leb n 122).

Fixpoint words_of (s : string) (word : string) : list string :=
  match s with
  | EmptyString => if String.eqb word "" then [] else [word]
  | String c s' =>
      let c' := lower c in
      if alphanumeric c' then words_of s' (word ++ String c' "")
      else if String.eqb word "" then words_of s' ""
           else word :: words_of s' ""
  end.

(** Modelled from the spec: the slug function [parameterize] (an npm
    package, not under src/), on ASCII labels: "lowercase, strip
    non-alphanumerics, hyphen-join". *)
Definition slugify (label : string) : string :=
  String.concat "-" (words_of label "").

(** The key [Number(s)] denotes, for the segments used in the
    examples: a run of decimal digits loses its leading zeros, any
    other text is not a number. *)
Fixpoint strip_zeros (s : string) : string :=
  match s with
  | String c s' =>
      if Ascii.eqb c "0" then
        match s' with
        | EmptyString => s
        | _ => strip_zeros s'
        end
      else s
  | EmptyString => s
  end.

Definition number_key (s : string) : string :=
  match s with
  | EmptyString => "0"
  | _ => match digits_value s 0 with
         | Some _ => strip_zeros s
         | None => "NaN"
         end
  end.

Definition power_toggle : Func :=
  {| func_name := "PowerToggle"; func_label := "Power Toggle";
     func_action := "{command:PowerToggle,type:IRCommand,deviceId:41235678}" |}.

Definition volume_up : Func :=
  {| func_name := "VolumeUp"; func_label := "Volume Up";
     func_action := "{command:VolumeUp,type:IRCommand,deviceId:41235678}" |}.

(** A second function with the label of [power_toggle]. *)
Definition power_toggle_again : Func :=
  {| func_name := "PowerToggle2"; func_label := "Power Toggle";
     func_action := "{command:PowerOn,type:IRCommand,deviceId:41235678}" |}.

Definition tv : RawDevice :=
  {| raw_id := "41235678"; raw_label := "Living Room TV";
     raw_controlGroup :=
       [ {| group_name := "Power"; group_function := [power_toggle] |};
         {| group_name := "Volume"; group_function := [volume_up] |} ] |}.

(** A device whose catalog lists two functions under one label. *)
Definition amplifier : RawDevice :=
  {| raw_id := "41235679"; raw_label := "Amplifier";
     raw_controlGroup :=
       [ {| group_name := "Power"; group_function := [power_toggle] |};
         {| group_name := "Home";
            group_function := [power_toggle_again] |} ] |}.

Definition power_off : Activity :=
  {| activity_id := "-1"; activity_label := "PowerOff";
     activity_controlGroup := [] |}.

Definition watch_tv : Activity :=
  {| activity_id := "30001"; activity_label := "Watch TV";
     activity_controlGroup :=
       [ {| group_name := "Volume"; group_function := [volume_up] |} ] |}.

Definition catalog : AvailableCommands :=
  {| catalog_device := [tv; amplifier];
     catalog_activity := [power_off; watch_tv] |}.

(** A hub that knows the catalog above and answers the three
    state-dependent calls as told. *)
Definition hub (current : result string) (off : result bool)
           (sent : result unit) : Hub :=
  {| answer_getAvailableCommands := fun _ => Ok catalog;
     answer_getActivities := fun _ => Ok [power_off; watch_tv];
     answer_getCurrentActivity := fun _ => current;
     answer_isOff := fun _ => off;
     answer_startActivity := fun _ id => Ok (HubValue id);
     answer_send := fun _ _ _ => sent |}.

Definition healthy_hub : Hub := hub (Ok "30001") (Ok false) (Ok tt).

Definition fresh : World :=
  {| this := new_host; rpcs := []; published := []; unhandled := [] |}.

(** The world when [connect()] resolves against the healthy hub: the
    catalog is cached and the first poll is in flight. *)
Definition connected : World :=
  snd (Index.connect slugify 0 healthy_hub fresh).

(** The same after one tick: watching TV, commands computed. *)
Definition watching : World :=
  snd (Index.connect slugify 1 healthy_hub fresh).

(** The world after one tick against a hub that is switched off. *)
Definition powered_off : World :=
  snd (Index.connect slugify 1 (hub (Ok "-1") (Ok true) (Ok tt)) fresh).

(** A hub whose [startActivity] call is rejected (it timed out). *)
Definition stalling_hub : Hub :=
  {| answer_getAvailableCommands := fun _ => Ok catalog;
     answer_getActivities := fun _ => Ok [power_off; watch_tv];
     answer_getCurrentActivity := fun _ => Ok "-1";
     answer_isOff := fun _ => Ok true;
     answer_startActivity := fun _ _ => Throw (Error "timeout");
     answer_send := fun _ _ _ => Ok tt |}.

(** The world after a request to start "Watch TV" on the switched-off
    hub, the transition to 30001 being in flight. *)
Definition starting : World :=
  snd (Index.startActivity "Watch TV" stalling_hub powered_off).

End Sample.

(* ================================================================== *)
(** * Topics, and further observations *)

(** The topic the constructor gives to [HostBase]:
    [topicRoot + '/' + config.device]. *)
Definition host_topic (topicRoot device : string) : string :=
  topicRoot ++ "/" ++ device.

(** The topic of a request for a device, under [this.topic + '/set/#']:
    the listener reads [parts[3]] and [parts[4]] of it. *)
Definition device_topic (topic deviceSlug : string) : string :=
  topic ++ "/set/device/" ++ deviceSlug.

(** A string without ['/']. *)
Fixpoint one_segment (s : string) : bool :=
  match s with
  | EmptyString => true
  | String c s' => negb (Ascii.eqb c "/") && one_segment s'
  end.

(** The two calls of the poll loop. *)
Definition is_fetch (c : hub_call) : bool :=
  match c with
  | GetCurrentActivity | IsOff => true
  | _ => false
  end.

(** A later function of the activity has the name of [func]. *)
Definition name_taken_later (func : Func) (later : list Func) : bool :=
  existsb (fun f => String.eqb (func_name f) (func_name func)) later.

(** A later record of the hub's list has the id of [activity]. *)
Definition activity_id_taken_later (activity : Activity)
           (later : list Activity) : bool :=
  existsb (fun a => String.eqb (activity_id a) (activity_id activity)) later.

(** Every function called like [func] has the action of [func]. *)
Definition name_means_one_action (func : Func) (functions : list Func)
  : bool :=
  forallb
    (fun f => negb (String.eqb (func_name f) (func_name func))
              || String.eqb (func_action f) (func_action func))
    functions.

(** A request on a command or activity topic, the command of which does
    not name a member every object inherits. *)
Definition ordinary_request (m : string * string) : bool :=
  awaited_topic (fst m)
  && (negb (endsWith (fst m) "command") || negb (inherited_name (snd m))).

(** What the poll loop never touches between two worlds: the
    unobserved rejections, the maps of the host and their copies in the
    state. *)
Definition catalog_untouched (w w' : World) : Prop :=
  unhandled w' = unhandled w /\
  availableCommands (this w') = availableCommands (this w) /\
  devices (this w') = devices (this w) /\
  deviceSlugs (this w') = deviceSlugs (this w) /\
  activities (this w') = activities (this w) /\
  state_availableCommands (state (this w'))
  = state_availableCommands (state (this w)) /\
  state_activities (state (this w')) = state_activities (state (this w)) /\
  state_devices (state (this w')) = state_devices (state (this w)).

(** The activity map built from the hub's list: each record under its
    id. *)
Definition activity_map (records : list Activity) : jsobj Activity :=
  fold_left (fun acts activity => obj_set (activity_id activity) activity acts)
            records [].

(** The world in which the hub has answered the three calls of
    [refresh] and the three maps have been merged into the state. *)
Definition catalog_cached (parameterize : string -> string)
           (first second : AvailableCommands) (records : list Activity)
           (w : World) : World :=
  let maps := index_devices parameterize (catalog_device second) in
  let acts := activity_map records in
  {| this :=
       {| availableCommands := Some first;
          devices := Some (fst maps);
          deviceSlugs := Some (snd maps);
          activities := Some acts;
          state :=
            merge_state (state (this w))
              [availableCommands_is (Some first);
               activities_is (Some acts);
               devices_is (Some (fst maps))] |};
     rpcs := (rpcs w ++ [GetAvailableCommands; GetAvailableCommands;
                         GetActivities])%list;
     published := published w;
     unhandled := unhandled w |}.

(* ================================================================== *)
(** * Escaping of action tokens *)



Lemma unescape_escape (s : string) :
  unescape_colons (escape_colons s) = s.
Proof.
  induction s as [|c s IH]; simpl; [reflexivity|].
  destruct (Ascii.eqb c ":") eqn:E.
  - apply Ascii.eqb_eq in E. subst c. simpl. now rewrite IH.
  - simpl. rewrite E. now rewrite IH.
Qed.

Lemma count_colons_escape (s : string) :
  count_colons (escape_colons s) = 2 * count_colons s.
Proof.
  induction s as [|c s IH]; simpl; [reflexivity|].
  destruct (Ascii.eqb c ":") eqn:E; simpl; rewrite ?E, IH; simpl; lia.
Qed.


Lemma doubled_once_is_escape (raw token : string) :
  doubled_once raw token = true -> token = escape_colons raw.
Proof.
  revert token. induction raw as [|c raw IH]; intros [|d token]; cbn;
    try discriminate; [reflexivity|].
  destruct (Ascii.eqb c ":") eqn:Hc.
  - destruct token as [|d' token]; [discriminate|].
    intros H. apply andb_prop in H. destruct H as [H Hrest].
    apply andb_prop in H. destruct H as [Hd Hd'].
    apply Ascii.eqb_eq in Hd, Hd'. subst d d'. now rewrite (IH _ Hrest).
  - intros H. apply andb_prop in H. destruct H as [Hd Hrest].
    apply Ascii.eqb_eq in Hd. subst d. now rewrite (IH _ Hrest).
Qed.

Lemma escape_colons_inj (s t : string) :
  escape_colons s = escape_colons t -> s = t.
Proof.
  intros H. rewrite <- (unescape_escape s), <- (unescape_escape t).
  now rewrite H.
Qed.

(* ================================================================== *)
(** * Objects: reading after writing *)

Section ObjectFacts.
Context {V : Type}.
Implicit Types (o : jsobj V) (k : string) (v : V).

Lemma obj_get_replace_same o k v :
  obj_get o k <> None -> obj_get (obj_replace k v o) k = Some v.
Proof.
  induction o as [|[k' v'] o IH]; simpl; intros H; [congruence|].
  destruct (String.eqb k' k) eqn:E; simpl; rewrite E; auto.
Qed.

Lemma obj_get_replace_other o k v k' :
  k <> k' -> obj_get (obj_replace k v o) k' = obj_get o k'.
Proof.
  intros Hne. induction o as [|[k0 v0] o IH]; simpl; [reflexivity|].
  destruct (String.eqb k0 k) eqn:E; simpl.
  - apply String.eqb_eq in E. subst k0.
    destruct (String.eqb k k') eqn:E'; [|reflexivity].
    apply String.eqb_eq in E'. contradiction.
  - now rewrite IH.
Qed.

Lemma obj_get_insert_index n o k v k' :
  obj_get o k = None ->
  obj_get (obj_insert_index n k v o) k' =
  if String.eqb k k' then Some v else obj_get o k'.
Proof.
  induction o as [|[k0 v0] o IH]; simpl; intros Habs.
  - reflexivity.
  - destruct (String.eqb k0 k) eqn:E0; [discriminate|].
    assert (Hhere : obj_get ((k, v) :: (k0, v0) :: o) k' =
                    if String.eqb k k' then Some v
                    else if String.eqb k0 k' then Some v0 else obj_get o k')
      by reflexivity.
    destruct (array_index k0) as [m|]; [|exact Hhere].
    destruct (m <? n)%N; [|exact Hhere].
    simpl. rewrite (IH Habs).
    destruct (String.eqb k k') eqn:E; [|reflexivity].
    apply String.eqb_eq in E. subst k'. now rewrite E0.
Qed.

Lemma obj_get_app_absent o k v k' :
  obj_get o k = None ->
  obj_get (o ++ [(k, v)])%list k' =
  if String.eqb k k' then Some v else obj_get o k'.
Proof.
  induction o as [|[k0 v0] o IH]; simpl; intros Habs.
  - reflexivity.
  - destruct (String.eqb k0 k) eqn:E0; [discriminate|].
    rewrite (IH Habs).
    destruct (String.eqb k k') eqn:E; [|reflexivity].
    apply String.eqb_eq in E. subst k'. now rewrite E0.
Qed.

(** [o[k] = v; o[k']] *)
Lemma obj_get_set o k v k' :
  obj_get (obj_set k v o) k' =
  if String.eqb k k' then Some v else obj_get o k'.
Proof.
  unfold obj_set. destruct (obj_get o k) as [v0|] eqn:Hk.
  - destruct (String.eqb k k') eqn:E.
    + apply String.eqb_eq in E. subst k'.
      apply obj_get_replace_same. congruence.
    + apply obj_get_replace_other. intros ->.
      rewrite String.eqb_refl in E. discriminate.
  - destruct (array_index k) as [n|].
    + now apply obj_get_insert_index.
    + now apply obj_get_app_absent.
Qed.

Lemma obj_get_set_same o k v : obj_get (obj_set k v o) k = Some v.
Proof. rewrite obj_get_set. now rewrite String.eqb_refl. Qed.

Lemma obj_get_set_other o k v k' :
  k <> k' -> obj_get (obj_set k v o) k' = obj_get o k'.
Proof.
  intros Hne. rewrite obj_get_set.
  destruct (String.eqb k k') eqn:E; [|reflexivity].
  apply String.eqb_eq in E. contradiction.
Qed.

(** What a scan finds is a property of the object that passes the
    test. *)
Lemma scan_keys_sound (test : V -> bool) o keys key v :
  scan_keys test o keys = Some (key, v) ->
  obj_get o key = Some v /\ test v = true.
Proof.
  induction keys as [|k0 keys IH]; simpl; [discriminate|].
  destruct (obj_get o k0) as [v0|] eqn:G; [|exact IH].
  destruct (test v0) eqn:T; [|exact IH].
  intros H. injection H as <- <-. now split.
Qed.

Lemma obj_get_in_keys o k v :
  obj_get o k = Some v -> In k (obj_keys o).
Proof.
  induction o as [|[k0 v0] o IH]; simpl; [discriminate|].
  destruct (String.eqb k0 k) eqn:E.
  - apply String.eqb_eq in E. now left.
  - intros H. right. now apply IH.
Qed.

(** A scan misses only when no listed key holds a passing property. *)
Lemma scan_keys_none (test : V -> bool) o keys :
  scan_keys test o keys = None ->
  forall k v, In k keys -> obj_get o k = Some v -> test v = false.
Proof.
  induction keys as [|k0 keys IH]; simpl; intros Hscan k v Hin Hget;
    [contradiction|].
  destruct (obj_get o k0) as [v0|] eqn:G.
  - destruct (test v0) eqn:T; [discriminate|].
    destruct Hin as [->|Hin]; [congruence | eauto].
  - destruct Hin as [->|Hin]; [congruence | eauto].
Qed.

Lemma scan_keys_miss (test : V -> bool) o keys :
  (forall k v, obj_get o k = Some v -> test v = false) ->
  scan_keys test o keys = None.
Proof.
  intros Hall. induction keys as [|k0 keys IH]; simpl; [reflexivity|].
  destruct (obj_get o k0) as [v0|] eqn:G; [|exact IH].
  now rewrite (Hall _ _ G).
Qed.
End ObjectFacts.

Lemma js_get_Own {V} (o : jsobj V) (k : string) (v : V) :
  js_get o k = Own v <-> obj_get o k = Some v.
Proof.
  unfold js_get. destruct (obj_get o k); [|destruct (inherited_name k)];
    split; congruence.
Qed.

(* ================================================================== *)
(** * Running asynchronous code symbolically *)

Lemma length_snoc {A} (l : list A) (x : A) :
  List.length (l ++ [x])%list = S (List.length l).
Proof. rewrite length_app. simpl. lia. Qed.

Lemma strict_eq_Some (x : option string) (a : string) :
  strict_eq x (Some a) = true <-> x = Some a.
Proof.
  destruct x as [y|]; simpl.
  - rewrite String.eqb_eq. split; congruence.
  - split; discriminate.
Qed.

Ltac unfold_async :=
  unfold Index.poll_iteration, Index.poll_body, Index.getCurrentActivity,
    Index.getCommands, Part000.poll_iteration, Part001.poll_iteration,
    Part001.poll_body, press_and_release, not_awaited, reject_unobserved,
    rpc_in_flight, publish, wait, set_state, get_state, get_this, with_this,
    rpc,
    try_catch, throw, bind, ret.

(** The three ways of reading [o[k]]. *)
Ltac case_read o k :=
  unfold js_get; destruct (obj_get o k);
  [|destruct (inherited_name k)]; cbn.

(** The answers of the hub to the two fetches of a tick. *)
Ltac case_fetches hub w :=
  unfold polled, polled_isOff;
  destruct (answer_getCurrentActivity hub (List.length (rpcs w)))
    as [a|e] eqn:Hcurrent; cbn;
  [ rewrite ?length_snoc;
    destruct (answer_isOff hub (S (List.length (rpcs w))))
      as [off|e] eqn:Hoff; cbn
  | ].

(* ================================================================== *)
(** * The poll loop *)

(** C1 (amended).  In a tick whose two fetches succeed, the new
    [startingActivity] is [null] when the polled activity equals the
    recorded [startingActivity] and is the recorded value otherwise; in a
    tick where a fetch throws, [startingActivity] keeps its value. *)
Theorem poll_clears_startingActivity_on_arrival (hub : Hub) (w : World) :
  let s := state (this w) in
  let s' := state (this (snd (Index.poll_iteration hub w))) in
  match polled hub w, polled_isOff hub w with
  | Ok a, Ok _ =>
      startingActivity s' =
      if strict_eq (startingActivity s) (Some a) then None
      else startingActivity s
  | _, _ => startingActivity s' = startingActivity s
  end.
Proof.
  unfold_async. cbn. case_fetches hub w.
  - destruct (strict_eq (currentActivity (state (this w))) (Some a)); cbn;
      [reflexivity|].
    destruct (state_activities (state (this w))) as [acts|]; cbn;
      [|reflexivity].
    case_read acts a; reflexivity.
  - reflexivity.
  - reflexivity.
Qed.

(** C1, as stated, fails when [isOff] rejects after the poll has seen
    the arrival: the hub reports activity 30001, which is the recorded
    [startingActivity], and the new state still has it. *)
Lemma arrival_not_recorded_when_isOff_fails :
  let hub := Sample.hub (Ok "30001") (Throw (Error "503")) (Ok tt) in
  let w := Sample.starting in
  polled hub w = Ok "30001" /\
  startingActivity (state (this w)) = Some "30001" /\
  startingActivity (state (this (snd (Index.poll_iteration hub w))))
  = Some "30001".
Proof. vm_compute. repeat split. Qed.

Lemma poll_iteration_completes (hub : Hub) (w : World) :
  fst (Index.poll_iteration hub w) = Ok tt.
Proof.
  unfold_async. cbn. case_fetches hub w; try reflexivity.
  destruct (strict_eq (currentActivity (state (this w))) (Some a)); cbn;
    [reflexivity|].
  destruct (state_activities (state (this w))) as [acts|]; cbn;
    [|reflexivity].
  case_read acts a; reflexivity.
Qed.

Lemma poll_never_exits (ticks : nat) (hub : Hub) (w : World) :
  fst (Index.poll ticks hub w) = Ok tt.
Proof.
  revert w. induction ticks as [|n IH]; intros w; [reflexivity|].
  cbn [Index.poll]. unfold bind.
  pose proof (poll_iteration_completes hub w) as Hit.
  destruct (Index.poll_iteration hub w) as [[[[]|e]|] w']; cbn in Hit;
    [apply IH | discriminate | discriminate].
Qed.

(** C2 (amended).  The loop goes on after every tick, whatever throws in
    it.  A tick in which fetching the current activity or [isOff] throws
    leaves the host as it was.  A tick in which recomputing the commands
    throws has already stored the polled [currentActivity] and [isOff]
    (and the new [startingActivity]); only [commands] keeps its value. *)
Theorem tick_that_throws (hub : Hub) (w : World) :
  let s := state (this w) in
  let w' := snd (Index.poll_iteration hub w) in
  (forall ticks, fst (Index.poll ticks hub w) = Ok tt) /\
  match fst (Index.poll_body hub w) with
  | Ok _ => True
  | Throw _ =>
      match polled hub w, polled_isOff hub w with
      | Ok a, Ok off => state (this w') = polled_state s a off
      | _, _ => this w' = this w
      end
  | Pending => False
  end.
Proof.
  split; [intros ticks; apply poll_never_exits|].
  unfold_async. cbn. case_fetches hub w.
  - destruct (strict_eq (currentActivity (state (this w))) (Some a)); cbn;
      [exact I|].
    destruct (state_activities (state (this w))) as [acts|]; cbn;
      [|reflexivity].
    case_read acts a; [exact I | reflexivity | reflexivity].
  - reflexivity.
  - reflexivity.
Qed.

(** C2, as stated, fails when the recomputation throws: the hub is off,
    then reports an activity the cached list does not have; the tick
    throws, yet [currentActivity] and [isOff] have changed. *)
Lemma state_written_before_recompute_throws :
  let hub := Sample.hub (Ok "30002") (Ok false) (Ok tt) in
  let w := Sample.powered_off in
  let w' := snd (Index.poll_iteration hub w) in
  fst (Index.poll_body hub w)
  = Throw (TypeError "Cannot read property 'controlGroup' of undefined") /\
  currentActivity (state (this w)) = Some "-1" /\
  currentActivity (state (this w')) = Some "30002" /\
  isOff (state (this w)) = Some true /\
  isOff (state (this w')) = Some false.
Proof. vm_compute. repeat split. Qed.

(** C8 (amended).  In a tick whose two fetches succeed, [commands] is
    left unchanged when the polled activity equals the recorded
    [currentActivity], and otherwise becomes the map computed for the
    polled activity (or stays, if that computation throws); in a tick
    where a fetch throws, [commands] is left unchanged. *)
Theorem commands_recomputed_on_change (hub : Hub) (w : World) :
  let s := state (this w) in
  let s' := state (this (snd (Index.poll_iteration hub w))) in
  match polled hub w, polled_isOff hub w with
  | Ok a, Ok _ =>
      if strict_eq (currentActivity s) (Some a) then commands s' = commands s
      else commands s' = match recomputed_commands s a with
                         | Some c => Some c
                         | None => commands s
                         end
  | _, _ => commands s' = commands s
  end.
Proof.
  unfold_async. unfold recomputed_commands. cbn. case_fetches hub w.
  - destruct (strict_eq (currentActivity (state (this w))) (Some a)); cbn;
      [reflexivity|].
    destruct (state_activities (state (this w))) as [acts|]; cbn;
      [|reflexivity].
    case_read acts a; reflexivity.
  - reflexivity.
  - reflexivity.
Qed.

(** C8, as stated, fails when [isOff] rejects: the polled activity (-1)
    differs from the recorded one (30001), and [commands] is not the map
    of the polled activity but the old one. *)
Lemma no_recompute_when_isOff_fails :
  let hub := Sample.hub (Ok "-1") (Throw (Error "503")) (Ok tt) in
  let w := Sample.watching in
  let s' := state (this (snd (Index.poll_iteration hub w))) in
  polled hub w = Ok "-1" /\
  currentActivity (state (this w)) = Some "30001" /\
  recomputed_commands (state (this w)) "-1" = Some [] /\
  commands s' = commands (state (this w)) /\
  commands s' <> Some [].
Proof. vm_compute. repeat split. discriminate. Qed.

(** In part_000 the current activity is fetched outside the [try]
    block: a rejection there ends the loop. *)
Lemma part000_poll_exits_on_fetch_failure :
  fst (Part000.poll 3 (Sample.hub (Throw (Error "503")) (Ok false) (Ok tt))
                    Sample.watching)
  = Throw (Error "503").
Proof. reflexivity. Qed.

(** In part_000 a tick never writes [startingActivity]. *)
Lemma part000_tick_keeps_startingActivity (hub : Hub) (w : World) :
  startingActivity (state (this (snd (Part000.poll_iteration hub w))))
  = startingActivity (state (this w)).
Proof.
  unfold_async. cbn.
  destruct (falsy (startingActivity (state (this w)))); cbn.
  - destruct (answer_getCurrentActivity hub (List.length (rpcs w)))
      as [a|e]; cbn; [|reflexivity].
    destruct (answer_isOff hub _) as [off|e]; cbn; [|reflexivity].
    destruct (strict_eq _ _); cbn; [reflexivity|].
    destruct (state_activities (state (this w))) as [acts|]; cbn;
      [|reflexivity].
    case_read acts a; reflexivity.
  - destruct (answer_isOff hub _) as [off|e]; cbn; [|reflexivity].
    destruct (strict_eq _ _); cbn; [reflexivity|].
    destruct (state_activities (state (this w))) as [acts|]; cbn;
      [|reflexivity].
    match goal with |- context [js_get acts ?k] => case_read acts k end;
      reflexivity.
Qed.

(** In part_001 a tick recomputes [commands] when the polled activity is
    the one being started, not when it differs from the recorded one. *)
Lemma part001_tick_misses_a_change :
  let hub := Sample.hub (Ok "-1") (Ok true) (Ok tt) in
  let w := Sample.watching in
  let s' := state (this (snd (Part001.poll_iteration hub w))) in
  currentActivity (state (this w)) = Some "30001" /\
  currentActivity s' = Some "-1" /\
  commands s' = commands (state (this w)).
Proof. vm_compute. repeat split. Qed.

(* ================================================================== *)
(** * Requests that resolve to nothing *)

Lemma obj_get_In {V} (o : jsobj V) (k : string) (v : V) :
  obj_get o k = Some v -> In (k, v) o.
Proof.
  induction o as [|[k0 v0] o IH]; simpl; [discriminate|].
  destruct (String.eqb k0 k) eqn:E.
  - apply String.eqb_eq in E. intros H. injection H as <-. left. congruence.
  - intros H. right. now apply IH.
Qed.

Lemma no_match_findActivity (acts : jsobj Activity) (payload : string) :
  matches_activity acts payload = false ->
  obj_get acts payload = None /\
  scan_keys (fun a => String.eqb (activity_label a) payload)
            acts (obj_keys acts) = None.
Proof.
  intros Hnone.
  assert (Hall : forall k a, In (k, a) acts ->
                   String.eqb k payload = false /\
                   String.eqb (activity_label a) payload = false).
  { intros k a Hin. unfold matches_activity in Hnone.
    destruct (String.eqb k payload
              || String.eqb (activity_label a) payload) eqn:E.
    - assert (Hex : existsb
                (fun entry => String.eqb (fst entry) payload
                   || String.eqb (activity_label (snd entry)) payload)
                acts = true)
        by (apply existsb_exists; exists (k, a); split; [exact Hin|exact E]).
      congruence.
    - now apply orb_false_elim in E. }
  split.
  - destruct (obj_get acts payload) as [a|] eqn:G; [|reflexivity].
    apply obj_get_In in G. apply Hall in G. destruct G as [G _].
    rewrite String.eqb_refl in G. discriminate.
  - apply scan_keys_miss. intros k a G.
    apply obj_get_In in G. now apply Hall in G.
Qed.

(** An activity-start request whose payload is neither the id nor the
    label of a known activity, nor the name of an inherited member, does
    nothing: no RPC is issued, the state is unchanged, nothing is
    published. *)
Lemma ordinary_unknown_activity_is_ignored (hub : Hub) (w : World)
      (payload : string) :
  known_activity (this w) payload = false ->
  inherited_name payload = false ->
  Index.startActivity payload hub w = (Ok Undefined, w) /\
  forall topic,
    endsWith topic "command" = false ->
    endsWith topic "activity" = true ->
    Index.on_message topic payload hub w = (Ok Undefined, w).
Proof.
  intros Hunknown Hordinary.
  assert (Hstart : Index.startActivity payload hub w = (Ok Undefined, w)).
  { unfold Index.startActivity, Index.findActivity, get_this, bind, ret.
    unfold known_activity in Hunknown.
    destruct (activities (this w)) as [acts|]; [|reflexivity].
    destruct (no_match_findActivity acts payload Hunknown) as [Hid Hlabel].
    unfold js_get. rewrite Hid, Hordinary. cbn. rewrite Hlabel.
    reflexivity. }
  split; [exact Hstart|].
  intros topic Hc Ha. unfold Index.on_message. now rewrite Hc, Ha.
Qed.

(** C6, at a failing input: the payload "constructor" is neither the id
    nor the label of a known activity, but [activities[payload]] finds
    the member every object inherits; [findActivity] returns the
    payload, and [startActivity] writes [startingActivity], publishes
    and calls the hub. *)
Lemma inherited_payload_starts_an_activity :
  let w := Sample.watching in
  let w' := snd (Index.on_message "harmony/harmony-hub/set/activity"
                                  "constructor" Sample.healthy_hub w) in
  known_activity (this w) "constructor" = false /\
  fst (Index.findActivity "constructor" Sample.healthy_hub w)
  = Ok (Some "constructor") /\
  rpcs w' = (rpcs w ++ [StartActivity "constructor"])%list /\
  map startingActivity (published w')
  = (map startingActivity (published w)
     ++ [Some "constructor"; None])%list.
Proof. vm_compute. repeat split. Qed.

(** A command name for which [commands[name]] is [undefined] makes
    [command] fulfil with an [Error] object; nothing else happens. *)
Lemma missing_command_fulfils_with_error (hub : Hub) (w : World)
      (name : string) :
  Index.lookup_control (state (this w)) name = Missing ->
  Index.command name hub w
  = (Ok (ErrorObject ("Invalid command " ++ name)), w).
Proof.
  intros Hnone. unfold Index.command, get_state, bind, ret.
  now rewrite Hnone.
Qed.

(** C10, at a failing input: the name "constructor" is no key of the
    command map, but [commands[name]] finds the inherited member and the
    early return is skipped; the executor throws, its rejection is
    observed by nobody, and the promise of [command] neither fulfils nor
    rejects. *)
Lemma inherited_command_never_settles :
  let w := Sample.watching in
  let run := Index.command "constructor" Sample.healthy_hub w in
  match commands (state (this w)) with
  | Some cs => obj_get cs "constructor"
  | None => None
  end = None /\
  fst run = Pending /\
  rpcs (snd run) = rpcs w /\
  unhandled (snd run)
  = (unhandled w
     ++ [TypeError "Cannot read property 'replace' of undefined"])%list.
Proof. vm_compute. repeat split. Qed.

(** C4, the device path at a failing input: the device exists, the
    command does not; the rejection is made and dropped, and two sends
    with the token [null] go to the hub. *)
Lemma unresolved_device_command_is_sent :
  let topic := "harmony/harmony-hub/set/device/living-room-tv" in
  let w' := snd (Index.on_message topic "nosuch"
                                  Sample.healthy_hub Sample.watching) in
  Index.findAction
    (Index.lookup_device
       (snd (index_devices Sample.slugify (catalog_device Sample.catalog)))
       "living-room-tv")
    "nosuch" = Ok NullAction /\
  rpcs w' = (rpcs Sample.watching ++ [press "null"; release "null"])%list /\
  unhandled w' = [Error "No such action nosuch"].
Proof. vm_compute. repeat split. Qed.

(* ================================================================== *)
(** * Maps built by a loop of assignments *)

Section AssignmentLoops.
Context {X V : Type}.
Variable key : X -> string.
Variable val : X -> V.

(** The loop [for (const x of l) o[key(x)] = val(x)] is a left fold of
    [obj_set].  A key nobody assigns keeps its property. *)
Lemma loop_keeps (l : list X) (init : jsobj V) (k : string) :
  (forall y, In y l -> key y <> k) ->
  obj_get (fold_left (fun o x => obj_set (key x) (val x) o) l init) k
  = obj_get init k.
Proof.
  revert init. induction l as [|x l IH]; intros init Hno; [reflexivity|].
  simpl. rewrite IH by (intros y Hy; apply Hno; now right).
  apply obj_get_set_other. apply Hno. now left.
Qed.

(** The last assignment to a key wins. *)
Lemma loop_last_wins (l1 : list X) (x : X) (l2 : list X)
      (init : jsobj V) :
  (forall y, In y l2 -> key y <> key x) ->
  obj_get (fold_left (fun o y => obj_set (key y) (val y) o)
                     (l1 ++ x :: l2) init) (key x)
  = Some (val x).
Proof.
  intros Hlater. rewrite fold_left_app. simpl.
  rewrite loop_keeps by exact Hlater.
  apply obj_get_set_same.
Qed.

(** Every property of the result was assigned by the loop or was
    there before. *)
Lemma loop_origin (l : list X) (init : jsobj V) (k : string) (v : V) :
  obj_get (fold_left (fun o x => obj_set (key x) (val x) o) l init) k
  = Some v ->
  (exists x, In x l /\ key x = k /\ val x = v) \/ obj_get init k = Some v.
Proof.
  revert init. induction l as [|x l IH]; intros init H; [now right|].
  simpl in H. apply IH in H. destruct H as [(y & Hy & Hk & Hv)|H].
  - left. exists y. repeat split; auto. now right.
  - rewrite obj_get_set in H.
    destruct (String.eqb (key x) k) eqn:E.
    + apply String.eqb_eq in E. injection H as <-.
      left. exists x. repeat split; auto. now left.
    + now right.
Qed.
End AssignmentLoops.

Lemma nested_loop_flat {A G F : Type} (body : A -> F -> A)
      (inner : G -> list F) (groups : list G) (init : A) :
  fold_left (fun acc g => fold_left body (inner g) acc) groups init
  = fold_left body (flat_map inner groups) init.
Proof.
  revert init. induction groups as [|g groups IH]; intros init;
    [reflexivity|].
  simpl. rewrite fold_left_app. apply IH.
Qed.

Lemma getCommandsFromControlGroup_flat (parameterize : string -> string)
      (controlGroup : list ControlGroup) :
  getCommandsFromControlGroup parameterize controlGroup
  = fold_left (add_command parameterize) (functions_of controlGroup) [].
Proof. apply nested_loop_flat. Qed.

Lemma flatten_commands_flat (controlGroup : list ControlGroup) :
  flatten_commands controlGroup
  = fold_left (fun commands func => obj_set (func_name func) func commands)
              (functions_of controlGroup) [].
Proof. apply nested_loop_flat. Qed.

(** Every entry of a device's command map comes from a function of its
    catalog, with the action escaped. *)
Lemma device_command_origin (parameterize : string -> string)
      (controlGroup : list ControlGroup) (k : string) (c : Command) :
  obj_get (getCommandsFromControlGroup parameterize controlGroup) k = Some c ->
  exists func, In func (functions_of controlGroup) /\
               parameterize (func_label func) = k /\
               c = command_of_func parameterize func.
Proof.
  rewrite getCommandsFromControlGroup_flat. intros H.
  apply (loop_origin (fun f => parameterize (func_label f))
                     (command_of_func parameterize)) in H.
  destruct H as [(f & Hin & Hk & Hv)|H]; [|discriminate].
  exists f. repeat split; auto.
Qed.


Lemma index_devices_slugs (parameterize : string -> string)
      (catalog : list RawDevice) (maps : jsobj Device * jsobj Device) :
  snd (fold_left (index_device parameterize) catalog maps)
  = fold_left (fun o raw => obj_set (parameterize (raw_label raw))
                                    (device_of parameterize raw) o)
              catalog (snd maps).
Proof.
  revert maps. induction catalog as [|raw catalog IH]; intros maps;
    [reflexivity|].
  simpl. rewrite IH. reflexivity.
Qed.

Lemma index_devices_ids (parameterize : string -> string)
      (catalog : list RawDevice) (maps : jsobj Device * jsobj Device) :
  fst (fold_left (index_device parameterize) catalog maps)
  = fold_left (fun o raw => obj_set (raw_id raw)
                                    (device_of parameterize raw) o)
              catalog (fst maps).
Proof.
  revert maps. induction catalog as [|raw catalog IH]; intros maps;
    [reflexivity|].
  simpl. rewrite IH. reflexivity.
Qed.


Lemma existsb_eqb_false {X : Type} (key : X -> string) (k : string)
      (l : list X) :
  existsb (fun y => String.eqb (key y) k) l = false ->
  forall y, In y l -> key y <> k.
Proof.
  intros Hnone y Hin Heq.
  assert (Hex : existsb (fun y => String.eqb (key y) k) l = true).
  { apply existsb_exists. exists y. split; [exact Hin|].
    now apply String.eqb_eq. }
  congruence.
Qed.

(* ================================================================== *)
(** * Resolving a command of a device *)

(** C7 (amended).  For a device D and a command C of D's catalog whose
    slug no later entry of the catalog takes, resolving D with the slug
    of C's label returns C's action token, escaped.  For an identifier
    that is not the name of a member every object inherits, resolution
    looks for an exact slug first; on a miss it returns the token of an
    entry whose name is the identifier, compared exactly; it returns
    null only when neither matches. *)
Theorem findAction_by_slug_then_name (parameterize : string -> string)
        (raw : RawDevice) (before : list Func) (C : Func)
        (after : list Func) :
  functions_of (raw_controlGroup raw) = (before ++ C :: after)%list ->
  slug_taken_later parameterize C after = false ->
  let device := device_of parameterize raw in
  let cmds := device_commands device in
  Index.findAction (Own device) (parameterize (func_label C))
  = Ok (Action (escape_colons (func_action C))) /\
  (forall id c,
      obj_get cmds id = Some c ->
      Index.findAction (Own device) id = Ok (Action (cmd_action c))) /\
  (forall id,
      obj_get cmds id = None ->
      inherited_name id = false ->
      match Index.findAction (Own device) id with
      | Ok (Action token) =>
          exists k c, obj_get cmds k = Some c /\ cmd_name c = id /\
                      cmd_action c = token
      | Ok NullAction =>
          forall k c, obj_get cmds k = Some c -> cmd_name c <> id
      | Ok UndefinedAction | Throw _ => False
      end).
Proof.
  intros Hcat Hfree device cmds.
  assert (Hslug : obj_get cmds (parameterize (func_label C))
                  = Some (command_of_func parameterize C)).
  { unfold cmds, device, device_of. cbn [device_commands].
    rewrite getCommandsFromControlGroup_flat, Hcat.
    apply (loop_last_wins (fun f => parameterize (func_label f))
                          (command_of_func parameterize)).
    now apply existsb_eqb_false. }
  repeat split.
  - unfold Index.findAction, js_get. fold cmds. now rewrite Hslug.
  - intros id c Hget. unfold Index.findAction, js_get. fold cmds.
    now rewrite Hget.
  - intros id Hmiss Hordinary. unfold Index.findAction, js_get. fold cmds.
    rewrite Hmiss, Hordinary.
    destruct (scan_keys (fun c => String.eqb (cmd_name c) id) cmds
                        (obj_keys cmds)) as [[k c]|] eqn:Hscan.
    + apply scan_keys_sound in Hscan. destruct Hscan as [Hget Hname].
      exists k, c. repeat split; auto. now apply String.eqb_eq.
    + intros k c Hget Hname.
      pose proof (scan_keys_none _ _ _ Hscan k c
                    (obj_get_in_keys _ _ _ Hget) Hget) as Hfalse.
      cbv beta in Hfalse. rewrite Hname, String.eqb_refl in Hfalse.
      discriminate.
Qed.

Lemma findAction_by_slug_then_name_witness :
  slug_taken_later Sample.slugify Sample.power_toggle [Sample.volume_up]
  = false /\
  Index.findAction (Own (device_of Sample.slugify Sample.tv))
                   (Sample.slugify (func_label Sample.power_toggle))
  = Ok (Action (escape_colons (func_action Sample.power_toggle))).
Proof.
  split; [vm_compute; reflexivity|].
  pose proof (findAction_by_slug_then_name Sample.slugify Sample.tv
                [] Sample.power_toggle [Sample.volume_up]
                eq_refl ltac:(vm_compute; reflexivity)) as H.
  exact (proj1 H).
Defined.

(** C7, as stated, fails when two functions of a device share a slug:
    the amplifier lists two functions labelled "Power Toggle"; resolving
    the slug of the first returns the action of the second. *)
Lemma later_function_takes_the_slug :
  let device := device_of Sample.slugify Sample.amplifier in
  In Sample.power_toggle (functions_of (raw_controlGroup Sample.amplifier)) /\
  Index.findAction (Own device)
                   (Sample.slugify (func_label Sample.power_toggle))
  = Ok (Action (escape_colons (func_action Sample.power_toggle_again))) /\
  Index.findAction (Own device)
                   (Sample.slugify (func_label Sample.power_toggle))
  <> Ok (Action (escape_colons (func_action Sample.power_toggle))).
Proof.
  vm_compute. split; [now left|]. split; [reflexivity|discriminate].
Qed.

(** The same happens for every slug function, the two labels being
    equal. *)
Lemma collision_for_any_slug_function (parameterize : string -> string) :
  Index.findAction (Own (device_of parameterize Sample.amplifier))
                   (parameterize "Power Toggle")
  = Ok (Action (escape_colons (func_action Sample.power_toggle_again))).
Proof.
  unfold Index.findAction, js_get, device_of. cbn [device_commands].
  rewrite getCommandsFromControlGroup_flat.
  cbn [functions_of flat_map raw_controlGroup Sample.amplifier
       group_function app fold_left].
  unfold add_command at 1.
  cbn [func_label Sample.power_toggle_again].
  rewrite obj_get_set_same. reflexivity.
Qed.

(** An identifier that is no slug of the device but the name of an
    inherited member takes the slug branch: [slugs[slug]] is truthy and
    has no [action], so [findAction] returns [undefined]. *)
Lemma findAction_inherited_identifier (device : Device) (id : string) :
  obj_get (device_commands device) id = None ->
  inherited_name id = true ->
  Index.findAction (Own device) id = Ok UndefinedAction.
Proof.
  intros Hmiss Hinherited. unfold Index.findAction, js_get.
  now rewrite Hmiss, Hinherited.
Qed.

(* ================================================================== *)
(** * Resolving the device of a device-command topic *)

Lemma find_app_last {X} (test : X -> bool) (l : list X) (x : X) :
  find test (l ++ [x])%list
  = match find test l with
    | Some y => Some y
    | None => if test x then Some x else None
    end.
Proof.
  induction l as [|y l IH]; cbn; [reflexivity|].
  now destruct (test y).
Qed.

(** After a loop of assignments, a key holds what the last assignment
    to it stored. *)
Lemma loop_find_last {X V} (key : X -> string) (val : X -> V)
      (l : list X) (init : jsobj V) (k : string) :
  obj_get (fold_left (fun o x => obj_set (key x) (val x) o) l init) k
  = match find_last (fun x => String.eqb (key x) k) l with
    | Some x => Some (val x)
    | None => obj_get init k
    end.
Proof.
  unfold find_last. revert init.
  induction l as [|x l IH]; intros init; [reflexivity|].
  cbn [fold_left rev]. rewrite IH, find_app_last, obj_get_set.
  destruct (find (fun x0 => String.eqb (key x0) k) (rev l));
    [reflexivity|].
  now destruct (String.eqb (key x) k).
Qed.

(** C5 (amended).  index.js resolves the segment with one lookup, in
    the slug-keyed map: to the last device of the catalog whose label
    has that slug, and to no device when there is none, whatever the
    ids are.  part_001 resolves it in the id-keyed map only, trying the
    segment as given, then [String(segment)] (the same key), then
    [Number(segment)], and stops at the first hit: to the last device
    of the catalog whose id is the segment, failing that to the last
    whose id is the key of [Number(segment)], and to no device
    otherwise, whatever the slugs are.  In both, a key that finds no
    device but names a member every object inherits yields that
    member. *)
Theorem device_segment_lookup (parameterize number_key : string -> string)
        (catalog : list RawDevice) (segment : string) :
  let maps := index_devices parameterize catalog in
  let slugs := snd maps in
  let devs := fst maps in
  Index.lookup_device slugs segment
  = match find_last (fun r => String.eqb (parameterize (raw_label r)) segment)
                    catalog with
    | Some raw => Own (device_of parameterize raw)
    | None => if inherited_name segment then Inherited else Missing
    end /\
  Part001.lookup_device number_key devs segment
  = match find_last (fun r => String.eqb (raw_id r) segment) catalog with
    | Some raw => Own (device_of parameterize raw)
    | None =>
        if inherited_name segment then Inherited
        else
          match find_last (fun r => String.eqb (raw_id r) (number_key segment))
                          catalog with
          | Some raw => Own (device_of parameterize raw)
          | None =>
              if inherited_name (number_key segment) then Inherited
              else Missing
          end
    end.
Proof.
  intros maps slugs devs.
  assert (Hs : forall k,
            obj_get slugs k
            = match find_last
                      (fun r => String.eqb (parameterize (raw_label r)) k)
                      catalog with
              | Some raw => Some (device_of parameterize raw)
              | None => None
              end).
  { intros k. unfold slugs, maps, index_devices.
    rewrite index_devices_slugs.
    apply (loop_find_last (fun r => parameterize (raw_label r))
                          (device_of parameterize)). }
  assert (Hd : forall k,
            obj_get devs k
            = match find_last (fun r => String.eqb (raw_id r) k) catalog with
              | Some raw => Some (device_of parameterize raw)
              | None => None
              end).
  { intros k. unfold devs, maps, index_devices. rewrite index_devices_ids.
    apply (loop_find_last raw_id (device_of parameterize)). }
  split.
  - unfold Index.lookup_device, js_get. rewrite Hs.
    now destruct (find_last _ catalog).
  - unfold Part001.lookup_device, Part001.or_else, js_get.
    rewrite !Hd.
    destruct (find_last (fun r => String.eqb (raw_id r) segment) catalog);
      cbn [truthy]; [reflexivity|].
    destruct (inherited_name segment); cbn [truthy]; [reflexivity|].
    destruct (find_last _ catalog); cbn [truthy]; [reflexivity|].
    now destruct (inherited_name (number_key segment)).
Qed.

(** The two resolutions on the sample catalog: index.js finds the TV by
    its slug and not by its id; part_001 finds it by its id, also
    written with a leading zero, and not by its slug. *)
Example device_segment_lookup_on_the_sample :
  let maps := index_devices Sample.slugify (catalog_device Sample.catalog) in
  let television := device_of Sample.slugify Sample.tv in
  Index.lookup_device (snd maps) "living-room-tv" = Own television /\
  Index.lookup_device (snd maps) "41235678" = Missing /\
  Part001.lookup_device Sample.number_key (fst maps) "41235678"
  = Own television /\
  Part001.lookup_device Sample.number_key (fst maps) "041235678"
  = Own television /\
  Part001.lookup_device Sample.number_key (fst maps) "living-room-tv"
  = Missing /\
  Index.lookup_device (snd maps) "constructor" = Inherited.
Proof. vm_compute. repeat split. Qed.

(** C5, as stated, fails in both revisions.  The specified resolution
    finds the TV by its id and by its slug; index.js does not find it by
    its id, part_001 does not find it by its slug. *)
Lemma no_revision_tries_slug_and_keys :
  let maps := index_devices Sample.slugify (catalog_device Sample.catalog) in
  let slugs := snd maps in
  let devs := fst maps in
  let television := device_of Sample.slugify Sample.tv in
  spec_lookup_device Sample.number_key slugs devs "41235678"
  = Some television /\
  Index.lookup_device slugs "41235678" = Missing /\
  spec_lookup_device Sample.number_key slugs devs "living-room-tv"
  = Some television /\
  Part001.lookup_device Sample.number_key devs "living-room-tv" = Missing.
Proof. vm_compute. repeat split. Qed.

(** The same seen from the bus, in index.js: a device topic that names
    the TV by its id sends the token [null]. *)
Lemma device_id_topic_sends_null :
  let w' := snd (Index.on_message "harmony/harmony-hub/set/device/41235678"
                   "power-toggle" Sample.healthy_hub Sample.watching) in
  rpcs w' = (rpcs Sample.watching ++ [press "null"; release "null"])%list.
Proof. vm_compute. reflexivity. Qed.

(* ================================================================== *)
(** * The message listener *)

Lemma press_and_release_effects (token : string) (hub : Hub) (w : World) :
  let w' := snd (press_and_release token hub w) in
  this w' = this w /\ published w' = published w /\
  unhandled w' = unhandled w /\ pressed token (rpcs w) (rpcs w').
Proof.
  unfold_async. unfold pressed, press, release. cbn.
  destruct (answer_send hub (List.length (rpcs w)) _ _) as [[]|e]; cbn.
  - destruct (answer_send hub _ _ _) as [[]|e]; cbn;
      rewrite <- app_assoc; cbn; auto.
  - auto.
Qed.

Ltac settled := split; [reflexivity|eexists; reflexivity].

Lemma press_and_release_settles (token : string) (hub : Hub) (w : World) :
  exists r : result value, fst (press_and_release token hub w) = r.
Proof.
  unfold_async. cbn.
  destruct (answer_send hub (List.length (rpcs w)) _ _) as [[]|e]; cbn;
    [|eexists; reflexivity].
  destruct (answer_send hub _ _ _) as [[]|e]; cbn; eexists; reflexivity.
Qed.

(** The promise of [command] settles, and nothing is left unobserved,
    unless the command names an inherited member. *)
Lemma command_keeps_unhandled (name : string) (hub : Hub) (w : World) :
  inherited_name name = false ->
  unhandled (snd (Index.command name hub w)) = unhandled w /\
  exists r : result value, fst (Index.command name hub w) = r.
Proof.
  intros Hname. unfold Index.command, Index.lookup_control, get_state, bind.
  cbn. destruct (commands (state (this w))) as [cs|]; [|now settled].
  unfold js_get. rewrite Hname.
  destruct (obj_get cs name) as [control|]; [|now settled].
  split; [apply press_and_release_effects|apply press_and_release_settles].
Qed.

Lemma startActivity_keeps_unhandled (payload : string) (hub : Hub)
      (w : World) :
  unhandled (snd (Index.startActivity payload hub w)) = unhandled w /\
  exists r : result value, fst (Index.startActivity payload hub w) = r.
Proof.
  assert (Hstart : forall id,
    let run :=
      (if falsy (Some id) then ret Undefined
       else
         try_catch
           (set_state [startingActivity_is (Some id)] ;;
            publish ;;
            r <- rpc (StartActivity id)
                     (fun hub n => answer_startActivity hub n id) ;;
            set_state [startingActivity_is None] ;;
            publish ;;
            ret r)
           (fun e => throw e)) hub w in
    unhandled (snd run) = unhandled w /\
    exists r : result value, fst run = r).
  { intros id. cbv zeta. destruct (falsy (Some id)); [now settled|].
    unfold_async. cbn.
    destruct (answer_startActivity hub _ _); cbn; now settled. }
  unfold Index.startActivity, Index.findActivity, get_this, bind, ret. cbn.
  destruct (activities (this w)) as [acts|]; cbn; [|now settled].
  destruct (truthy (js_get acts payload)); cbn; [apply Hstart|].
  destruct (scan_keys _ acts (obj_keys acts)) as [[k a]|]; cbn;
    [apply Hstart|now settled].
Qed.

Lemma part001_on_message_never_rejects (number_key : string -> string)
      (topic message : string) (hub : Hub) (w : World) (e : exn) :
  fst (Part001.on_message number_key topic message hub w) <> Throw e.
Proof.
  unfold Part001.on_message, try_catch, ret.
  match goal with |- context [match ?b hub w with _ => _ end] =>
    destruct (b hub w) as [[[v|e']|] w'] end; cbn; discriminate.
Qed.

Lemma part001_ordinary_request (number_key : string -> string)
      (topic message : string) (hub : Hub) (w : World) :
  ordinary_request (topic, message) = true ->
  unhandled (snd (Part001.on_message number_key topic message hub w))
  = unhandled w /\
  exists v, fst (Part001.on_message number_key topic message hub w) = Ok v.
Proof.
  unfold ordinary_request, awaited_topic, Part001.on_message, try_catch, ret.
  cbn [fst snd].
  destruct (endsWith topic "command") eqn:Hc; cbn [andb orb negb];
    intros Hordinary.
  - apply negb_true_iff in Hordinary.
    destruct (command_keeps_unhandled message hub w Hordinary)
      as [Hu [r Hr]].
    destruct (Index.command message hub w) as [o w'].
    cbn [fst snd] in Hu, Hr. subst o.
    destruct r as [v|e]; cbn [fst snd];
      (split; [exact Hu|eexists; reflexivity]).
  - rewrite andb_true_r in Hordinary. rewrite Hordinary.
    destruct (startActivity_keeps_unhandled message hub w) as [Hu [r Hr]].
    destruct (Index.startActivity message hub w) as [o w'].
    cbn [fst snd] in Hu, Hr. subst o.
    destruct r as [v|e]; cbn [fst snd];
      (split; [exact Hu|eexists; reflexivity]).
Qed.

(** C9 (amended).  In part_001, whose listener wraps its body in
    [try]/[catch], the promise of the listener rejects for no message.
    For a request on a command or activity topic, the command of which
    does not name a member every object inherits, the promise fulfils:
    a failure in the awaited handling (a hub send that rejects included)
    is caught there, so that delivering any sequence of such requests
    handles every one of them and leaves no rejection unobserved. *)
Theorem part001_listener_catches (number_key : string -> string)
        (hub : Hub) (messages : list (string * string)) (w : World) :
  forallb ordinary_request messages = true ->
  (forall topic message w0 e,
      fst (Part001.on_message number_key topic message hub w0) <> Throw e) /\
  (forall topic message w0,
      ordinary_request (topic, message) = true ->
      exists v,
        fst (Part001.on_message number_key topic message hub w0) = Ok v) /\
  fst (Part001.deliver number_key messages hub w) = Ok tt /\
  unhandled (snd (Part001.deliver number_key messages hub w)) = unhandled w.
Proof.
  intros Hall.
  split; [intros; apply part001_on_message_never_rejects|].
  split; [intros topic message w0 H;
          apply (part001_ordinary_request number_key topic message hub w0 H)|].
  revert w Hall. induction messages as [|[topic message] rest IH];
    intros w Hall; [now split|].
  cbn [forallb] in Hall. apply andb_prop in Hall.
  destruct Hall as [Hhere Hrest].
  cbn [Part001.deliver]. unfold not_awaited, try_catch, bind, ret.
  destruct (part001_ordinary_request number_key topic message hub w Hhere)
    as [Hu [v Hv]].
  destruct (Part001.on_message number_key topic message hub w)
    as [o w1]; cbn in Hv, Hu. subst o.
  destruct (IH w1 Hrest) as [Hok Hun]. split; [exact Hok|].
  now rewrite Hun.
Qed.

Lemma part001_listener_catches_witness :
  let hub := Sample.hub (Ok "30001") (Ok false) (Throw (Error "503")) in
  let messages := [("harmony/harmony-hub/set/command", "VolumeUp");
                   ("harmony/harmony-hub/set/activity", "Watch TV")] in
  forallb ordinary_request messages = true /\
  unhandled (snd (Part001.deliver Sample.number_key messages hub
                                  Sample.watching))
  = unhandled Sample.watching.
Proof.
  split; [vm_compute; reflexivity|].
  pose proof (part001_listener_catches Sample.number_key
                (Sample.hub (Ok "30001") (Ok false) (Throw (Error "503")))
                [("harmony/harmony-hub/set/command", "VolumeUp");
                 ("harmony/harmony-hub/set/activity", "Watch TV")]
                Sample.watching ltac:(vm_compute; reflexivity)) as H.
  exact (proj2 (proj2 (proj2 H))).
Defined.

(** In part_001 too, a command that names an inherited member is not
    an error the [catch] sees: the executor of [command] throws, the
    promise the listener awaits never settles, and the [TypeError] is
    observed by nobody. *)
Lemma part001_inherited_command_is_not_caught :
  let topic := "harmony/harmony-hub/set/command" in
  let run := Part001.on_message Sample.number_key topic "constructor"
                                Sample.healthy_hub Sample.watching in
  fst run = Pending /\
  unhandled (snd run)
  = [TypeError "Cannot read property 'replace' of undefined"].
Proof. vm_compute. split; reflexivity. Qed.

(** C9, as stated, fails in index.js, whose listener has no [catch]: the
    hub rejects the press of a resolved command, the promise of the
    listener rejects, and nobody observes the rejection. *)
Lemma index_listener_rejects_on_send_failure :
  let hub := Sample.hub (Ok "30001") (Ok false) (Throw (Error "503")) in
  let topic := "harmony/harmony-hub/set/command" in
  fst (Index.on_message topic "VolumeUp" hub Sample.watching)
  = Throw (Error "503") /\
  unhandled (snd (Index.deliver [(topic, "VolumeUp")] hub Sample.watching))
  = [Error "503"].
Proof. vm_compute. split; reflexivity. Qed.

(** In part_001 the device path is not awaited: a send that rejects
    there is not caught by the [catch] of the listener. *)
Lemma part001_device_failure_is_unobserved :
  let hub := Sample.hub (Ok "30001") (Ok false) (Throw (Error "503")) in
  let topic := "harmony/harmony-hub/set/device/41235678" in
  unhandled (snd (Part001.on_message Sample.number_key topic "power-toggle"
                                     hub Sample.watching))
  = [Error "503"].
Proof. vm_compute. reflexivity. Qed.

(* ================================================================== *)
(** * Action tokens on their way to the hub *)


(** [deviceCommand] presses the button named by whatever [findAction]
    returned, [null] and [undefined] included. *)
Lemma deviceCommand_presses (deviceSlug name : string) (hub : Hub)
      (w : World) (slugs : jsobj Device) (a : action) :
  deviceSlugs (this w) = Some slugs ->
  Index.findAction (Index.lookup_device slugs deviceSlug) name = Ok a ->
  pressed (string_of_action a) (rpcs w)
          (rpcs (snd (Index.deviceCommand deviceSlug name hub w))).
Proof.
  intros Hslugs Hfound.
  unfold Index.deviceCommand, get_this, of_result, bind. cbn.
  rewrite Hslugs, Hfound.
  destruct (falsy_action a),
           (truthy (Index.lookup_device slugs deviceSlug));
    unfold reject_unobserved, ret; cbn;
    match goal with
    | |- pressed ?token _ (rpcs (snd (press_and_release _ _ ?w0))) =>
        exact (proj2 (proj2 (proj2 (press_and_release_effects token hub w0))))
    end.
Qed.




(** The tokens of the two paths at work on the sample installation. *)
Example command_path_escapes_once :
  rpcs (snd (Index.command "VolumeUp" Sample.healthy_hub Sample.watching))
  = (rpcs Sample.watching
     ++ [press "{command::VolumeUp,type::IRCommand,deviceId::41235678}";
         release "{command::VolumeUp,type::IRCommand,deviceId::41235678}"])%list.
Proof. reflexivity. Qed.

Example device_path_escapes_once :
  rpcs (snd (Index.deviceCommand "living-room-tv" "volume-up"
               Sample.healthy_hub Sample.watching))
  = (rpcs Sample.watching
     ++ [press "{command::VolumeUp,type::IRCommand,deviceId::41235678}";
         release "{command::VolumeUp,type::IRCommand,deviceId::41235678}"])%list.
Proof. reflexivity. Qed.

(** C4, in general: whenever the device or the command of a device
    request resolves to nothing, [deviceCommand] still presses, with the
    token [null]. *)
Lemma unresolved_device_command_presses_null (deviceSlug name : string)
      (hub : Hub) (w : World) (slugs : jsobj Device) :
  deviceSlugs (this w) = Some slugs ->
  Index.findAction (Index.lookup_device slugs deviceSlug) name
  = Ok NullAction ->
  pressed "null" (rpcs w)
          (rpcs (snd (Index.deviceCommand deviceSlug name hub w))).
Proof.
  intros Hslugs Hnone.
  exact (deviceCommand_presses deviceSlug name hub w slugs NullAction
           Hslugs Hnone).
Qed.

(** The texts sent for a request that names an inherited member: the
    command [constructor] of a known device is pressed as [undefined];
    for the device [constructor] nothing is sent and the rejection of
    [deviceCommand] is observed by nobody. *)
Example inherited_names_on_the_device_path :
  rpcs (snd (Index.deviceCommand "living-room-tv" "constructor"
               Sample.healthy_hub Sample.watching))
  = (rpcs Sample.watching
     ++ [press "undefined"; release "undefined"])%list /\
  let topic := "harmony/harmony-hub/set/device/constructor" in
  let w' := snd (Index.on_message topic "power-toggle" Sample.healthy_hub
                                  Sample.watching) in
  rpcs w' = rpcs Sample.watching /\
  unhandled w' = [TypeError "Cannot read property of undefined"].
Proof. vm_compute. repeat split. Qed.

(* ================================================================== *)
(** * Where the two maps of C3 come from *)

(** A tick leaves [commands] alone or stores what [getCommands]
    computed from an activity. *)
Lemma tick_commands_come_from_getCommands (hub : Hub) (w : World) :
  let s := state (this w) in
  let s' := state (this (snd (Index.poll_iteration hub w))) in
  commands s' = commands s \/
  exists activity,
    commands s' = Some (flatten_commands (activity_controlGroup activity)).
Proof.
  unfold_async. cbn. case_fetches hub w; auto.
  destruct (strict_eq (currentActivity (state (this w))) (Some a)); cbn; auto.
  destruct (state_activities (state (this w))) as [acts|]; cbn; auto.
  case_read acts a; eauto.
Qed.

(** [getDevices], when the hub answers, stores the slug index of the
    catalog in [this.deviceSlugs]. *)
Lemma getDevices_stores_slug_index (parameterize : string -> string)
      (hub : Hub) (w : World) (catalog : AvailableCommands) :
  answer_getAvailableCommands hub (List.length (rpcs w)) = Ok catalog ->
  deviceSlugs (this (snd (Index.getDevices parameterize hub w)))
  = Some (snd (index_devices parameterize (catalog_device catalog))).
Proof.
  intros Hanswer.
  unfold Index.getDevices, set_deviceSlugs, with_this, rpc, try_catch,
    bind, ret.
  cbn. rewrite Hanswer. reflexivity.
Qed.

(** A start request that the hub rejects leaves [startingActivity] set. *)
Example rejected_start_leaves_transition_in_flight :
  startingActivity (state (this Sample.powered_off)) = None /\
  fst (Index.startActivity "Watch TV" Sample.stalling_hub Sample.powered_off)
  = Throw (Error "timeout") /\
  startingActivity (state (this Sample.starting)) = Some "30001".
Proof. vm_compute. repeat split. Qed.

(* ================================================================== *)
(** * The JavaScript layer on small inputs *)

Example keys_are_enumerated_as_in_javascript :
  obj_keys (obj_set "10" 5 (obj_set "1" 4 (obj_set "a" 3
             (obj_set "2" 2 (obj_set "b" 1 (obj_set "2" 0 []))))))
  = ["1"; "2"; "10"; "b"; "a"].
Proof. reflexivity. Qed.

Example assignment_replaces_in_place :
  obj_set "2" 2 (obj_set "b" 1 (obj_set "2" 0 [])) = [("2", 2); ("b", 1)].
Proof. reflexivity. Qed.

Example split_topic :
  split "/" "harmony/harmony-hub/set/device/living-room-tv"
  = ["harmony"; "harmony-hub"; "set"; "device"; "living-room-tv"].
Proof. reflexivity. Qed.

Example endsWith_command :
  endsWith "harmony/harmony-hub/set/command" "command" = true /\
  endsWith "harmony/harmony-hub/set/activity" "command" = false /\
  endsWith "and" "command" = false.
Proof. repeat split. Qed.

Example escape_then_unescape :
  escape_colons "a:b::c" = "a::b::::c" /\
  colons_paired "a::b::::c" = true /\
  colons_paired "a:b" = false /\
  unescape_colons "a::b::::c" = "a:b::c".
Proof. repeat split. Qed.

(* ================================================================== *)
(** * More on escaping *)

(** X1.  Escaping loses nothing: two raw actions with the same escaped
    token are the same action. *)
Theorem escaped_tokens_tell_actions_apart (s t : string) :
  escape_colons s = escape_colons t -> s = t.
Proof.
  intros H.
  rewrite <- (unescape_escape s), <- (unescape_escape t). now f_equal.
Qed.

Lemma escaped_tokens_tell_actions_apart_witness :
  escape_colons "a:b" = escape_colons "a:b" /\ "a:b" = "a:b".
Proof.
  split; [reflexivity|].
  apply (escaped_tokens_tell_actions_apart "a:b" "a:b"). reflexivity.
Defined.

Lemma length_escape_colons (s : string) :
  String.length (escape_colons s) = String.length s + count_colons s.
Proof.
  induction s as [|c s IH]; simpl; [reflexivity|].
  destruct (Ascii.eqb c ":"); simpl; rewrite IH; lia.
Qed.

(** X2.  Escaping lengthens a token by one character per [':'], so it
    leaves exactly the colon-free tokens as they are: escaping a second
    time a token that had a colon gives a different token. *)
Theorem escaping_twice_differs (s : string) :
  String.length (escape_colons s) = String.length s + count_colons s /\
  (escape_colons s = s <-> count_colons s = 0) /\
  (escape_colons (escape_colons s) = escape_colons s <-> count_colons s = 0).
Proof.
  assert (Hfix : forall u, escape_colons u = u <-> count_colons u = 0).
  { intros u. split.
    - intros H. pose proof (length_escape_colons u) as L.
      rewrite H in L. lia.
    - induction u as [|c u IH]; simpl; [reflexivity|].
      destruct (Ascii.eqb c ":"); simpl; [discriminate|].
      intros H. now rewrite IH. }
  split; [apply length_escape_colons|]. split; [apply Hfix|].
  rewrite Hfix, count_colons_escape. lia.
Qed.

(* ================================================================== *)
(** * The maps built from the hub's lists *)

(** X3.  [getCommands] reads the cached activity the state names as
    current and resolves the name of each of its functions, unless a
    later function has the same name, to that function as the hub gave
    it (action not escaped); it changes nothing. *)
Theorem getCommands_resolves_names (hub : Hub) (w : World)
        (acts : jsobj Activity) (a : string) (activity : Activity)
        (before : list Func) (C : Func) (after : list Func) :
  state_activities (state (this w)) = Some acts ->
  currentActivity (state (this w)) = Some a ->
  obj_get acts a = Some activity ->
  functions_of (activity_controlGroup activity) = (before ++ C :: after)%list ->
  name_taken_later C after = false ->
  exists cmds,
    Index.getCommands hub w = (Ok cmds, w) /\
    obj_get cmds (func_name C) = Some C.
Proof.
  intros Hacts Hcur Hget Hfun Hfree.
  exists (flatten_commands (activity_controlGroup activity)). split.
  - unfold Index.getCommands, get_state, bind, ret, throw. cbn.
    rewrite Hacts, Hcur. cbn. now rewrite (proj2 (js_get_Own _ _ _) Hget).
  - rewrite flatten_commands_flat, Hfun.
    apply (loop_last_wins func_name (fun f => f)).
    now apply existsb_eqb_false.
Qed.

Lemma getCommands_resolves_names_witness :
  name_taken_later Sample.volume_up [] = false /\
  exists cmds,
    Index.getCommands Sample.healthy_hub Sample.watching
    = (Ok cmds, Sample.watching) /\
    obj_get cmds (func_name Sample.volume_up) = Some Sample.volume_up.
Proof.
  split; [reflexivity|].
  eapply (getCommands_resolves_names Sample.healthy_hub Sample.watching
            _ "30001" Sample.watch_tv [] Sample.volume_up []);
    reflexivity.
Defined.

(** X4.  [getCommands] throws a [TypeError], and changes nothing, when
    the state has no activity list or the list has no activity under
    the current id. *)
Theorem getCommands_throws_without_activity (hub : Hub) (w : World) :
  recomputed_commands (state (this w))
    (key_of_optional (currentActivity (state (this w)))) = None ->
  exists message,
    Index.getCommands hub w = (Throw (TypeError message), w).
Proof.
  unfold recomputed_commands, Index.getCommands, get_state, bind, ret, throw.
  cbn. intros H.
  destruct (state_activities (state (this w))) as [acts|]; [|eauto].
  unfold js_get. destruct (obj_get acts _); [discriminate|].
  destruct (inherited_name _); eauto.
Qed.

Lemma getCommands_throws_without_activity_witness :
  exists message,
    Index.getCommands Sample.healthy_hub Sample.connected
    = (Throw (TypeError message), Sample.connected).
Proof.
  apply (getCommands_throws_without_activity
           Sample.healthy_hub Sample.connected).
  reflexivity.
Defined.

(** X5.  Every entry of a device's command map sits under its own slug,
    which is the slug of its label, and carries the name and label of a
    function of the device with that function's action escaped. *)
Theorem command_index_entries (parameterize : string -> string)
        (controlGroup : list ControlGroup) (k : string) (c : Command) :
  obj_get (getCommandsFromControlGroup parameterize controlGroup) k = Some c ->
  cmd_slug c = k /\ parameterize (cmd_label c) = k /\
  exists func,
    In func (functions_of controlGroup) /\
    cmd_name c = func_name func /\ cmd_label c = func_label func /\
    cmd_action c = escape_colons (func_action func).
Proof.
  intros H. apply device_command_origin in H.
  destruct H as (func & Hin & Hk & ->). cbn.
  repeat split; auto. exists func. now repeat split.
Qed.

Lemma command_index_entries_witness :
  exists c,
    obj_get (getCommandsFromControlGroup Sample.slugify
               (raw_controlGroup Sample.tv)) "volume-up" = Some c /\
    cmd_slug c = "volume-up".
Proof.
  exists (command_of_func Sample.slugify Sample.volume_up).
  split; [reflexivity|].
  apply (command_index_entries Sample.slugify (raw_controlGroup Sample.tv)
           "volume-up" (command_of_func Sample.slugify Sample.volume_up)).
  reflexivity.
Defined.

Lemma id_device_origin (parameterize : string -> string)
      (catalog : list RawDevice) (k : string) (d : Device) :
  obj_get (fst (index_devices parameterize catalog)) k = Some d ->
  exists raw, In raw catalog /\ raw_id raw = k /\
              d = device_of parameterize raw.
Proof.
  unfold index_devices. rewrite index_devices_ids. intros H.
  apply (loop_origin raw_id (device_of parameterize)) in H.
  destruct H as [(r & Hin & Hk & Hv)|H]; [|discriminate].
  exists r. now repeat split.
Qed.

Lemma slug_device_origin_key (parameterize : string -> string)
      (catalog : list RawDevice) (k : string) (d : Device) :
  obj_get (snd (index_devices parameterize catalog)) k = Some d ->
  exists raw, In raw catalog /\ parameterize (raw_label raw) = k /\
              d = device_of parameterize raw.
Proof.
  unfold index_devices. rewrite index_devices_slugs. intros H.
  apply (loop_origin (fun r => parameterize (raw_label r))
                     (device_of parameterize)) in H.
  destruct H as [(r & Hin & Hk & Hv)|H]; [|discriminate].
  exists r. now repeat split.
Qed.

(** X6.  The two maps of [getDevices] are keyed consistently: a device
    found under a key of the id map has that id, a device found under a
    key of the slug map has that slug, and either is a device of the
    hub's list with the command map built from its control groups. *)
Theorem device_maps_are_keyed_by_id_and_slug
        (parameterize : string -> string) (catalog : list RawDevice)
        (k : string) (d : Device) :
  obj_get (fst (index_devices parameterize catalog)) k = Some d \/
  obj_get (snd (index_devices parameterize catalog)) k = Some d ->
  (obj_get (fst (index_devices parameterize catalog)) k = Some d ->
   device_id d = k) /\
  (obj_get (snd (index_devices parameterize catalog)) k = Some d ->
   device_slug d = k) /\
  device_slug d = parameterize (device_label d) /\
  device_commands d
  = getCommandsFromControlGroup parameterize (device_controlGroup d) /\
  exists raw, In raw catalog /\ d = device_of parameterize raw.
Proof.
  intros Hfound.
  assert (Hraw : exists raw, In raw catalog /\ d = device_of parameterize raw).
  { destruct Hfound as [H|H].
    - apply id_device_origin in H. destruct H as (r & Hin & _ & ->). eauto.
    - apply slug_device_origin_key in H.
      destruct H as (r & Hin & _ & ->). eauto. }
  split; [|split; [|split; [|split]]].
  - intros H. apply id_device_origin in H.
    now destruct H as (r & _ & <- & ->).
  - intros H. apply slug_device_origin_key in H.
    now destruct H as (r & _ & <- & ->).
  - now destruct Hraw as (r & _ & ->).
  - now destruct Hraw as (r & _ & ->).
  - exact Hraw.
Qed.

Lemma device_maps_are_keyed_by_id_and_slug_witness :
  let maps := index_devices Sample.slugify (catalog_device Sample.catalog) in
  obj_get (snd maps) "amplifier"
  = Some (device_of Sample.slugify Sample.amplifier) /\
  device_slug (device_of Sample.slugify Sample.amplifier) = "amplifier".
Proof.
  cbv zeta. split; [reflexivity|].
  pose proof (device_maps_are_keyed_by_id_and_slug Sample.slugify
                (catalog_device Sample.catalog) "amplifier"
                (device_of Sample.slugify Sample.amplifier)
                (or_intror eq_refl)) as H.
  exact (proj1 (proj2 H) eq_refl).
Defined.

(** X7.  [getActivities] keys the hub's records by id: what is found
    under a key is a record of the list with that id, and the id of a
    record finds that record unless a later record has the same id.
    When the hub rejects the call, [getActivities] rejects with the same
    error.  The host is not touched either way. *)
Theorem getActivities_keys_by_id (hub : Hub) (w : World) :
  this (snd (Index.getActivities hub w)) = this w /\
  match answer_getActivities hub (List.length (rpcs w)) with
  | Ok records =>
      exists acts,
        fst (Index.getActivities hub w) = Ok acts /\
        (forall k a, obj_get acts k = Some a ->
                     activity_id a = k /\ In a records) /\
        (forall before a after,
            records = (before ++ a :: after)%list ->
            activity_id_taken_later a after = false ->
            obj_get acts (activity_id a) = Some a)
  | Throw e => fst (Index.getActivities hub w) = Throw e
  end.
Proof.
  unfold Index.getActivities, rpc, try_catch, throw, bind, ret. cbn.
  destruct (answer_getActivities hub (List.length (rpcs w)))
    as [records|e]; cbn; [|now split].
  split; [reflexivity|]. eexists. split; [reflexivity|]. split.
  - intros k a H. apply (loop_origin activity_id (fun r => r)) in H.
    destruct H as [(r & Hin & Hk & Hv)|H]; [|discriminate].
    subst. now split.
  - intros before a after -> Hfree.
    apply (loop_last_wins activity_id (fun r => r)).
    now apply existsb_eqb_false.
Qed.

(** X8.  A command of a device is also resolved by its name: when the
    name is not itself a slug of the device ([slugs[name]] reads as
    [undefined]), the entry of the command was not overwritten, and the
    functions of that name all have one action, [findAction] returns
    that action, escaped. *)
Theorem findAction_resolves_names (parameterize : string -> string)
        (raw : RawDevice) (before : list Func) (C : Func)
        (after : list Func) :
  functions_of (raw_controlGroup raw) = (before ++ C :: after)%list ->
  slug_taken_later parameterize C after = false ->
  name_means_one_action C (functions_of (raw_controlGroup raw)) = true ->
  js_get (device_commands (device_of parameterize raw)) (func_name C)
  = Missing ->
  Index.findAction (Own (device_of parameterize raw)) (func_name C)
  = Ok (Action (escape_colons (func_action C))).
Proof.
  intros Hcat Hfree Hone Hmiss.
  set (cmds := device_commands (device_of parameterize raw)) in *.
  assert (Hslug : obj_get cmds (parameterize (func_label C))
                  = Some (command_of_func parameterize C)).
  { unfold cmds. cbn [device_commands device_of].
    rewrite getCommandsFromControlGroup_flat, Hcat.
    apply (loop_last_wins (fun f => parameterize (func_label f))
                          (command_of_func parameterize)).
    now apply existsb_eqb_false. }
  unfold Index.findAction. fold cmds. rewrite Hmiss.
  destruct (scan_keys (fun c => String.eqb (cmd_name c) (func_name C)) cmds
                      (obj_keys cmds)) as [[k c]|] eqn:Hscan.
  - apply scan_keys_sound in Hscan. destruct Hscan as [Hget Hname].
    apply String.eqb_eq in Hname.
    unfold cmds in Hget. cbn [device_commands device_of] in Hget.
    apply device_command_origin in Hget.
    destruct Hget as (f & Hin & _ & ->). cbn in Hname |- *.
    unfold name_means_one_action in Hone.
    rewrite forallb_forall in Hone. specialize (Hone f Hin).
    rewrite Hname, String.eqb_refl in Hone. cbn in Hone.
    apply String.eqb_eq in Hone. now rewrite Hone.
  - pose proof (scan_keys_none _ _ _ Hscan _ _
                  (obj_get_in_keys _ _ _ Hslug) Hslug) as Hfalse.
    cbn in Hfalse. rewrite String.eqb_refl in Hfalse. discriminate.
Qed.

Lemma findAction_resolves_names_witness :
  name_means_one_action Sample.volume_up
    (functions_of (raw_controlGroup Sample.tv)) = true /\
  Index.findAction (Own (device_of Sample.slugify Sample.tv))
                   (func_name Sample.volume_up)
  = Ok (Action (escape_colons (func_action Sample.volume_up))).
Proof.
  split; [reflexivity|].
  apply (findAction_resolves_names Sample.slugify Sample.tv
           [Sample.power_toggle] Sample.volume_up []);
    vm_compute; reflexivity.
Defined.

(* ================================================================== *)
(** * Starting an activity *)

Lemma findActivity_pure (payload : string) (hub : Hub) (w : World) :
  snd (Index.findActivity payload hub w) = w /\
  exists r, fst (Index.findActivity payload hub w) = Ok r.
Proof.
  unfold Index.findActivity, get_this, bind, ret. cbn.
  destruct (activities (this w)) as [acts|]; cbn; [|now eauto].
  destruct (truthy (js_get acts payload)); cbn; [now eauto|].
  destruct (scan_keys _ acts (obj_keys acts)) as [[k a]|]; cbn; now eauto.
Qed.

(** X9.  [findActivity] changes nothing and returns [null], or the
    payload itself when reading it from the cached activity list gives
    something truthy (the payload is a key of the list, or it names a
    member every object inherits, which is no activity), or else the
    key of an activity of the list whose label is the payload; [null]
    means the payload is no key, no inherited member and no reachable
    label. *)
Theorem findActivity_returns_a_cached_id (payload : string) (hub : Hub)
        (w : World) :
  snd (Index.findActivity payload hub w) = w /\
  match fst (Index.findActivity payload hub w) with
  | Ok (Some id) =>
      exists acts,
        activities (this w) = Some acts /\
        (id = payload /\
         ((exists a, obj_get acts payload = Some a) \/
          obj_get acts payload = None /\ inherited_name payload = true)
         \/
         obj_get acts payload = None /\ inherited_name payload = false /\
         exists a, obj_get acts id = Some a /\ activity_label a = payload)
  | Ok None =>
      forall acts,
        activities (this w) = Some acts ->
        obj_get acts payload = None /\ inherited_name payload = false /\
        forall k a, obj_get acts k = Some a -> activity_label a <> payload
  | Throw _ | Pending => False
  end.
Proof.
  split; [apply findActivity_pure|].
  unfold Index.findActivity, get_this, bind, ret. cbn.
  destruct (activities (this w)) as [acts|]; cbn; [|discriminate].
  unfold js_get.
  destruct (obj_get acts payload) as [a|] eqn:Hid; cbn [truthy fst];
    [exists acts; split; [reflexivity|]; left; split; [reflexivity|];
     left; now exists a|].
  destruct (inherited_name payload) eqn:Hinherited; cbn [truthy fst];
    [exists acts; split; [reflexivity|]; left; split; [reflexivity|];
     now right|].
  destruct (scan_keys _ acts (obj_keys acts)) as [[k a]|] eqn:Hscan;
    cbn [fst].
  - apply scan_keys_sound in Hscan. destruct Hscan as [Hget Hlabel].
    apply String.eqb_eq in Hlabel. exists acts. split; [reflexivity|].
    right. repeat split; auto. now exists a.
  - intros acts' Heq. injection Heq as <-. repeat split; auto.
    intros k a Hget Hlabel.
    pose proof (scan_keys_none _ _ _ Hscan k a
                  (obj_get_in_keys _ _ _ Hget) Hget) as Hfalse.
    cbv beta in Hfalse. rewrite Hlabel, String.eqb_refl in Hfalse.
    discriminate.
Qed.

(** X10.  A start request that resolves to the id [id] and that the hub
    accepts: the hub gets exactly one call, [startActivity(id)]; two
    snapshots are published, the first with [startingActivity = id],
    the second with [startingActivity = null]; the promise fulfils with
    the hub's answer, and of the state only [startingActivity] may have
    changed, to [null]. *)
Theorem accepted_start_publishes_twice (payload id : string) (r : value)
        (hub : Hub) (w : World) :
  fst (Index.findActivity payload hub w) = Ok (Some id) ->
  id <> "" ->
  answer_startActivity hub (List.length (rpcs w)) id = Ok r ->
  let w' := snd (Index.startActivity payload hub w) in
  fst (Index.startActivity payload hub w) = Ok r /\
  rpcs w' = (rpcs w ++ [StartActivity id])%list /\
  published w'
  = (published w
     ++ [merge_state (state (this w)) [startingActivity_is (Some id)];
         merge_state (state (this w)) [startingActivity_is None]])%list /\
  state (this w') = merge_state (state (this w)) [startingActivity_is None] /\
  unhandled w' = unhandled w.
Proof.
  intros Hfound Hid Hanswer.
  destruct (findActivity_pure payload hub w) as [Hw _].
  unfold Index.startActivity, bind.
  destruct (Index.findActivity payload hub w) as [res w1].
  cbn in Hfound, Hw. subst res w1. cbn [falsy string_of_nullable].
  destruct (String.eqb id "") eqn:E;
    [apply String.eqb_eq in E; contradiction|].
  unfold_async. cbn. rewrite Hanswer. cbn.
  rewrite <- app_assoc. now repeat split.
Qed.

Lemma accepted_start_publishes_twice_witness :
  let w' := snd (Index.startActivity "Watch TV" Sample.healthy_hub
                                     Sample.powered_off) in
  fst (Index.findActivity "Watch TV" Sample.healthy_hub Sample.powered_off)
  = Ok (Some "30001") /\
  rpcs w' = (rpcs Sample.powered_off ++ [StartActivity "30001"])%list.
Proof.
  cbv zeta. split; [reflexivity|].
  pose proof (accepted_start_publishes_twice "Watch TV" "30001"
                (HubValue "30001") Sample.healthy_hub Sample.powered_off
                eq_refl ltac:(discriminate) eq_refl) as H.
  exact (proj1 (proj2 H)).
Defined.

(** X11.  A start request that resolves to [id] and that the hub
    rejects: the promise rejects with the hub's error, one snapshot was
    published, and [startingActivity] is left at [id]; nothing clears
    it. *)
Theorem rejected_start_leaves_startingActivity (payload id : string)
        (e : exn) (hub : Hub) (w : World) :
  fst (Index.findActivity payload hub w) = Ok (Some id) ->
  id <> "" ->
  answer_startActivity hub (List.length (rpcs w)) id = Throw e ->
  let w' := snd (Index.startActivity payload hub w) in
  fst (Index.startActivity payload hub w) = Throw e /\
  rpcs w' = (rpcs w ++ [StartActivity id])%list /\
  published w'
  = (published w
     ++ [merge_state (state (this w)) [startingActivity_is (Some id)]])%list /\
  startingActivity (state (this w')) = Some id /\
  state (this w')
  = merge_state (state (this w)) [startingActivity_is (Some id)].
Proof.
  intros Hfound Hid Hanswer.
  destruct (findActivity_pure payload hub w) as [Hw _].
  unfold Index.startActivity, bind.
  destruct (Index.findActivity payload hub w) as [res w1].
  cbn in Hfound, Hw. subst res w1. cbn [falsy string_of_nullable].
  destruct (String.eqb id "") eqn:E;
    [apply String.eqb_eq in E; contradiction|].
  unfold_async. cbn. rewrite Hanswer. cbn. now repeat split.
Qed.

Lemma rejected_start_leaves_startingActivity_witness :
  let w' := snd (Index.startActivity "Watch TV" Sample.stalling_hub
                                     Sample.powered_off) in
  fst (Index.findActivity "Watch TV" Sample.stalling_hub Sample.powered_off)
  = Ok (Some "30001") /\
  startingActivity (state (this w')) = Some "30001".
Proof.
  cbv zeta. split; [reflexivity|].
  pose proof (rejected_start_leaves_startingActivity "Watch TV" "30001"
                (Error "timeout") Sample.stalling_hub Sample.powered_off
                eq_refl ltac:(discriminate) eq_refl) as H.
  exact (proj1 (proj2 (proj2 (proj2 H)))).
Defined.

(* ================================================================== *)
(** * More on the poll loop *)

Lemma catalog_untouched_refl (w : World) : catalog_untouched w w.
Proof. unfold catalog_untouched. now repeat split. Qed.

Lemma catalog_untouched_trans (w1 w2 w3 : World) :
  catalog_untouched w1 w2 -> catalog_untouched w2 w3 ->
  catalog_untouched w1 w3.
Proof.
  unfold catalog_untouched.
  intros (A1 & A2 & A3 & A4 & A5 & A6 & A7 & A8)
         (B1 & B2 & B3 & B4 & B5 & B6 & B7 & B8).
  repeat split; congruence.
Qed.

Lemma tick_fetches_and_frame (hub : Hub) (w : World) :
  let w' := snd (Index.poll_iteration hub w) in
  (rpcs w' = (rpcs w ++ [GetCurrentActivity])%list \/
   rpcs w' = (rpcs w ++ [GetCurrentActivity; IsOff])%list) /\
  catalog_untouched w w'.
Proof.
  unfold_async. unfold catalog_untouched. cbn. case_fetches hub w.
  - destruct (strict_eq (currentActivity (state (this w))) (Some a)); cbn.
    + rewrite <- app_assoc. cbn. split; [now right | now repeat split].
    + destruct (state_activities (state (this w))) as [acts|]; cbn.
      * case_read acts a; rewrite <- app_assoc; cbn;
          (split; [now right | now repeat split]).
      * rewrite <- app_assoc. cbn. split; [now right | now repeat split].
  - rewrite <- app_assoc. cbn. split; [now right | now repeat split].
  - split; [now left | now repeat split].
Qed.

Lemma poll_fetches_and_frame (ticks : nat) (hub : Hub) (w : World) :
  let w' := snd (Index.poll ticks hub w) in
  (exists added,
      rpcs w' = (rpcs w ++ added)%list /\
      forallb is_fetch added = true /\
      ticks <= List.length added <= 2 * ticks) /\
  catalog_untouched w w'.
Proof.
  revert w. induction ticks as [|n IH]; intros w.
  - cbn. split; [|apply catalog_untouched_refl].
    exists []. rewrite app_nil_r. cbn. repeat split; lia.
  - cbn [Index.poll]. unfold bind.
    pose proof (poll_iteration_completes hub w) as Hok.
    pose proof (tick_fetches_and_frame hub w) as Htick.
    destruct (Index.poll_iteration hub w) as [o w1]. cbn in Hok. subst o.
    cbn in Htick. destruct Htick as [Hrpcs Hframe].
    specialize (IH w1). cbv zeta in IH.
    destruct IH as [(added & Hadd & Hfetch & Hlen) Hframe'].
    split; [|eapply catalog_untouched_trans; eassumption].
    destruct Hrpcs as [Hrpcs|Hrpcs]; rewrite Hrpcs in Hadd.
    + exists (GetCurrentActivity :: added).
      rewrite <- app_assoc in Hadd. cbn in Hadd |- *.
      repeat split; auto; lia.
    + exists (GetCurrentActivity :: IsOff :: added).
      rewrite <- app_assoc in Hadd. cbn in Hadd |- *.
      repeat split; auto; lia.
Qed.

(** X12.  However long it runs, the poll loop only ever asks the hub
    for the current activity and for [isOff], once or twice per tick; it
    sends no command, starts no activity, leaves no rejection
    unobserved, and never touches the cached catalog (devices, slugs,
    activities, available commands) of the host or of the state. *)
Theorem poll_only_fetches (ticks : nat) (hub : Hub) (w : World) :
  let w' := snd (Index.poll ticks hub w) in
  (exists added,
      rpcs w' = (rpcs w ++ added)%list /\
      forallb is_fetch added = true /\
      ticks <= List.length added <= 2 * ticks) /\
  catalog_untouched w w'.
Proof. exact (poll_fetches_and_frame ticks hub w). Qed.

Lemma merge_polled_same (s : State) (a : string) (off : bool) :
  currentActivity s = Some a ->
  isOff s = Some off ->
  strict_eq (startingActivity s) (Some a) = false ->
  polled_state s a off = s.
Proof.
  intros Hcur Hoff Hstart. unfold polled_state. rewrite Hstart.
  destruct s. cbn in *. now subst.
Qed.

Lemma steady_tick (hub : Hub) (w : World) (a : string) (off : bool) :
  currentActivity (state (this w)) = Some a ->
  isOff (state (this w)) = Some off ->
  strict_eq (startingActivity (state (this w))) (Some a) = false ->
  polled hub w = Ok a ->
  polled_isOff hub w = Ok off ->
  state (this (snd (Index.poll_iteration hub w))) = state (this w).
Proof.
  intros Hcur Hoff Hstart Hp Hq.
  pose proof (merge_polled_same _ _ _ Hcur Hoff Hstart) as Hsame.
  unfold polled, polled_isOff in Hp, Hq.
  unfold_async. cbn. rewrite Hp. cbn. rewrite length_snoc, Hq. cbn.
  rewrite Hcur. cbn. rewrite String.eqb_refl. cbn.
  unfold polled_state in Hsame. rewrite Hstart in Hsame |- *. exact Hsame.
Qed.

(** X13.  A tick that polls what the state already records (the same
    activity, the same [isOff]) while no arrival is pending writes the
    state back as it was: polling a quiet hub changes nothing. *)
Theorem quiet_tick_changes_nothing (hub : Hub) (w : World) (a : string)
        (off : bool) :
  currentActivity (state (this w)) = Some a ->
  isOff (state (this w)) = Some off ->
  startingActivity (state (this w)) <> Some a ->
  polled hub w = Ok a ->
  polled_isOff hub w = Ok off ->
  state (this (snd (Index.poll_iteration hub w))) = state (this w).
Proof.
  intros Hcur Hoff Hstart Hp Hq. apply (steady_tick hub w a off); auto.
  destruct (strict_eq (startingActivity (state (this w))) (Some a)) eqn:E;
    [|reflexivity].
  apply strict_eq_Some in E. contradiction.
Qed.

Lemma quiet_tick_changes_nothing_witness :
  polled Sample.healthy_hub Sample.watching = Ok "30001" /\
  state (this (snd (Index.poll_iteration Sample.healthy_hub Sample.watching)))
  = state (this Sample.watching).
Proof.
  split; [reflexivity|].
  apply (quiet_tick_changes_nothing Sample.healthy_hub Sample.watching
           "30001" false);
    [reflexivity | reflexivity | discriminate | reflexivity | reflexivity].
Defined.

Lemma tick_records_the_poll (hub : Hub) (w : World) (a : string)
      (off : bool) :
  polled hub w = Ok a ->
  polled_isOff hub w = Ok off ->
  let s' := state (this (snd (Index.poll_iteration hub w))) in
  currentActivity s' = Some a /\ isOff s' = Some off /\
  strict_eq (startingActivity s') (Some a) = false.
Proof.
  intros Hp Hq. unfold polled, polled_isOff in Hp, Hq.
  assert (Hstart : forall x,
            strict_eq (if strict_eq x (Some a) then None else x) (Some a)
            = false).
  { intros x. destruct (strict_eq x (Some a)) eqn:E; [reflexivity|exact E]. }
  unfold_async. cbn. rewrite Hp. cbn. rewrite length_snoc, Hq. cbn.
  destruct (strict_eq (currentActivity (state (this w))) (Some a)); cbn;
    [now repeat split|].
  destruct (state_activities (state (this w))) as [acts|]; cbn;
    [|now repeat split].
  case_read acts a; now repeat split.
Qed.

(** X14.  After a tick whose two fetches succeeded, a next tick that
    gets the same two answers changes nothing.  In particular a
    recomputation of [commands] that threw in the first tick is not
    tried again: [commands] stays what it was before both ticks while
    [currentActivity] is the polled one. *)
Theorem repeated_poll_is_stable (hub : Hub) (w : World) (a : string)
        (off : bool) :
  polled hub w = Ok a ->
  polled_isOff hub w = Ok off ->
  let w1 := snd (Index.poll_iteration hub w) in
  polled hub w1 = Ok a ->
  polled_isOff hub w1 = Ok off ->
  let w2 := snd (Index.poll_iteration hub w1) in
  state (this w2) = state (this w1) /\
  match fst (Index.poll_body hub w) with
  | Throw _ =>
      currentActivity (state (this w2)) = Some a /\
      commands (state (this w2)) = commands (state (this w))
  | Ok _ => True
  | Pending => False
  end.
Proof.
  intros Hp Hq w1 Hp1 Hq1 w2.
  destruct (tick_records_the_poll hub w a off Hp Hq) as (Hcur & Hoff & Hst).
  fold w1 in Hcur, Hoff, Hst.
  assert (Hsame : state (this w2) = state (this w1))
    by (apply (steady_tick hub w1 a off); assumption).
  split; [exact Hsame|].
  rewrite Hsame. unfold w1.
  unfold polled, polled_isOff in Hp, Hq.
  unfold_async. cbn. rewrite Hp. cbn. rewrite length_snoc, Hq. cbn.
  destruct (strict_eq (currentActivity (state (this w))) (Some a)); cbn;
    [exact I|].
  destruct (state_activities (state (this w))) as [acts|]; cbn;
    [|now split].
  case_read acts a; [exact I | now split | now split].
Qed.

Lemma repeated_poll_is_stable_witness :
  let hub := Sample.hub (Ok "30002") (Ok false) (Ok tt) in
  let w1 := snd (Index.poll_iteration hub Sample.powered_off) in
  let w2 := snd (Index.poll_iteration hub w1) in
  polled hub Sample.powered_off = Ok "30002" /\
  state (this w2) = state (this w1).
Proof.
  cbv zeta. split; [reflexivity|].
  pose proof (repeated_poll_is_stable
                (Sample.hub (Ok "30002") (Ok false) (Ok tt))
                Sample.powered_off "30002" false
                eq_refl eq_refl eq_refl eq_refl) as H.
  exact (proj1 H).
Defined.

(* ================================================================== *)
(** * Pressing a button *)

Lemma press_and_release_outcome (token : string) (hub : Hub) (w : World) :
  let n := List.length (rpcs w) in
  let w' := snd (press_and_release token hub w) in
  match answer_send hub n "holdAction" ("action=" ++ token ++ ":status=press")
  with
  | Throw e =>
      fst (press_and_release token hub w) = Throw e /\
      rpcs w' = (rpcs w ++ [press token])%list
  | Ok _ =>
      rpcs w' = (rpcs w ++ [press token; release token])%list /\
      match answer_send hub (S n) "holdAction"
                        ("action=" ++ token ++ ":status=release") with
      | Throw e => fst (press_and_release token hub w) = Throw e
      | Ok _ => fst (press_and_release token hub w) = Ok Undefined
      end
  end.
Proof.
  unfold_async. unfold press, release. cbn.
  destruct (answer_send hub (List.length (rpcs w)) _ _) as [[]|e]; cbn;
    [|now split].
  rewrite length_snoc, <- app_assoc. cbn.
  destruct (answer_send hub (S (List.length (rpcs w))) _ _) as [[]|e]; cbn;
    now split.
Qed.

(** X15.  A command that resolves is sent as a press followed by a
    release of the same escaped token.  If the hub rejects the press,
    the release is never sent and [command] rejects with that error; if
    it rejects the release, [command] rejects with that error; otherwise
    [command] fulfils with [undefined].  In no case does [command] touch
    the host, publish, or leave a rejection unobserved. *)
Theorem command_presses_then_releases (hub : Hub) (w : World)
        (name : string) (control : Func) :
  Index.lookup_control (state (this w)) name = Own control ->
  let token := escape_colons (func_action control) in
  let n := List.length (rpcs w) in
  let w' := snd (Index.command name hub w) in
  this w' = this w /\ published w' = published w /\
  unhandled w' = unhandled w /\
  match answer_send hub n "holdAction" ("action=" ++ token ++ ":status=press")
  with
  | Throw e =>
      fst (Index.command name hub w) = Throw e /\
      rpcs w' = (rpcs w ++ [press token])%list
  | Ok _ =>
      rpcs w' = (rpcs w ++ [press token; release token])%list /\
      match answer_send hub (S n) "holdAction"
                        ("action=" ++ token ++ ":status=release") with
      | Throw e => fst (Index.command name hub w) = Throw e
      | Ok _ => fst (Index.command name hub w) = Ok Undefined
      end
  end.
Proof.
  intros Hfound token n w'. unfold w', Index.command, get_state, bind.
  cbn. rewrite Hfound. fold token.
  destruct (press_and_release_effects token hub w) as (H1 & H2 & H3 & _).
  repeat split; auto. apply press_and_release_outcome.
Qed.

Lemma command_presses_then_releases_witness :
  let hub := Sample.hub (Ok "30001") (Ok false) (Throw (Error "503")) in
  let token := escape_colons (func_action Sample.volume_up) in
  Index.lookup_control (state (this Sample.watching)) "VolumeUp"
  = Own Sample.volume_up /\
  fst (Index.command "VolumeUp" hub Sample.watching) = Throw (Error "503") /\
  rpcs (snd (Index.command "VolumeUp" hub Sample.watching))
  = (rpcs Sample.watching ++ [press token])%list.
Proof.
  cbv zeta. split; [reflexivity|].
  pose proof (command_presses_then_releases
                (Sample.hub (Ok "30001") (Ok false) (Throw (Error "503")))
                Sample.watching "VolumeUp" Sample.volume_up eq_refl) as H.
  exact (proj2 (proj2 (proj2 H))).
Defined.

(** X16.  Nothing [command] or [deviceCommand] does changes the host:
    the live state and the cached maps are the same after a command or
    device request as before, whether it resolved or not and whatever
    the hub answered, and nothing is published. *)
Theorem dispatch_never_writes_state (name deviceSlug : string) (hub : Hub)
        (w : World) :
  this (snd (Index.command name hub w)) = this w /\
  published (snd (Index.command name hub w)) = published w /\
  this (snd (Index.deviceCommand deviceSlug name hub w)) = this w /\
  published (snd (Index.deviceCommand deviceSlug name hub w)) = published w.
Proof.
  assert (Hc : this (snd (Index.command name hub w)) = this w /\
               published (snd (Index.command name hub w)) = published w).
  { unfold Index.command, get_state, bind. cbn.
    destruct (Index.lookup_control (state (this w)) name) as [control| |];
      [|now split|now split].
    destruct (press_and_release_effects
                (escape_colons (func_action control)) hub w)
      as (H1 & H2 & _). now split. }
  assert (Hd : this (snd (Index.deviceCommand deviceSlug name hub w))
               = this w /\
               published (snd (Index.deviceCommand deviceSlug name hub w))
               = published w).
  { unfold Index.deviceCommand, get_this, of_result, bind. cbn.
    destruct (deviceSlugs (this w)) as [slugs|]; [|now split].
    destruct (Index.findAction (Index.lookup_device slugs deviceSlug) name)
      as [a|e]; [|now split].
    destruct (falsy_action a),
             (truthy (Index.lookup_device slugs deviceSlug));
      unfold reject_unobserved, ret; cbn;
      match goal with
      | |- this (snd (press_and_release ?t _ ?w0)) = _ /\ _ =>
          destruct (press_and_release_effects t hub w0) as (H1 & H2 & _);
          now split
      end. }
  destruct Hc as [Hc1 Hc2]. destruct Hd as [Hd1 Hd2]. now repeat split.
Qed.

(* ================================================================== *)
(** * Topics *)

Lemma string_app_assoc (a b c : string) : (a ++ b) ++ c = a ++ b ++ c.
Proof. induction a as [|x a IH]; simpl; [reflexivity|now rewrite IH]. Qed.

Lemma string_length_app (a b : string) :
  String.length (a ++ b) = String.length a + String.length b.
Proof. induction a as [|x a IH]; simpl; [reflexivity|now rewrite IH]. Qed.

Lemma substring_all (s : string) : substring 0 (String.length s) s = s.
Proof. induction s as [|c s IH]; simpl; [reflexivity|now rewrite IH]. Qed.

Lemma substring_skip (p s : string) (m : nat) :
  substring (String.length p) m (p ++ s) = substring 0 m s.
Proof. induction p as [|c p IH]; simpl; [reflexivity|exact IH]. Qed.

Lemma substring_cut (k : nat) (s : string) :
  k <= String.length s ->
  s = substring 0 k s ++ substring k (String.length s - k) s.
Proof.
  revert s. induction k as [|k IH]; intros s Hk.
  - rewrite Nat.sub_0_r, substring_all. now destruct s.
  - destruct s as [|c s]; simpl in Hk; [lia|].
    simpl. f_equal. apply IH. lia.
Qed.

(** [s.endsWith(suffix)] holds exactly when [s] is some text followed
    by [suffix]. *)
Lemma endsWith_iff (s suffix : string) :
  endsWith s suffix = true <-> exists p, s = p ++ suffix.
Proof.
  unfold endsWith. split.
  - intros H. apply andb_prop in H. destruct H as [Hle Heq].
    apply Nat.leb_le in Hle. apply String.eqb_eq in Heq.
    exists (substring 0 (String.length s - String.length suffix) s).
    pose proof (substring_cut (String.length s - String.length suffix) s
                  ltac:(lia)) as Hcut.
    replace (String.length s - (String.length s - String.length suffix))
      with (String.length suffix) in Hcut by lia.
    now rewrite Heq in Hcut.
  - intros [p ->]. rewrite string_length_app.
    apply andb_true_intro. split; [apply Nat.leb_le; lia|].
    replace (String.length p + String.length suffix - String.length suffix)
      with (String.length p) by lia.
    rewrite substring_skip, substring_all. apply String.eqb_refl.
Qed.

Lemma endsWith_app (p s suffix : string) :
  endsWith s suffix = true -> endsWith (p ++ s) suffix = true.
Proof.
  rewrite !endsWith_iff. intros [q ->]. exists (p ++ q).
  now rewrite string_app_assoc.
Qed.

Lemma split_first_segment (a rest : string) :
  one_segment a = true ->
  split "/" (a ++ String "/" rest) = a :: split "/" rest.
Proof.
  induction a as [|c a IH]; simpl; intros H; [reflexivity|].
  apply andb_prop in H. destruct H as [Hc Ha].
  apply negb_true_iff in Hc. rewrite Hc, (IH Ha). reflexivity.
Qed.

Lemma split_one_segment (a : string) :
  one_segment a = true -> split "/" a = [a].
Proof.
  induction a as [|c a IH]; simpl; intros H; [reflexivity|].
  apply andb_prop in H. destruct H as [Hc Ha].
  apply negb_true_iff in Hc. rewrite Hc, (IH Ha). reflexivity.
Qed.

(** The parts of a device topic whose root, hub name and device slug
    are single segments. *)
Lemma split_device_topic (topicRoot device deviceSlug : string) :
  one_segment topicRoot = true ->
  one_segment device = true ->
  one_segment deviceSlug = true ->
  split "/" (device_topic (host_topic topicRoot device) deviceSlug)
  = [topicRoot; device; "set"; "device"; deviceSlug].
Proof.
  intros Hr Hd Hs. unfold device_topic, host_topic.
  rewrite !string_app_assoc.
  change ("/" ++ device ++ "/set/device/" ++ deviceSlug)
    with (String "/" (device ++ String "/"
            ("set" ++ String "/" ("device" ++ String "/" deviceSlug)))).
  rewrite (split_first_segment _ _ Hr), (split_first_segment _ _ Hd).
  rewrite (split_first_segment "set"), (split_first_segment "device")
    by reflexivity.
  now rewrite (split_one_segment _ Hs).
Qed.

Lemma device_topic_is_routed (topicRoot device deviceSlug message : string)
      (hub : Hub) (w : World) :
  one_segment topicRoot = true ->
  one_segment device = true ->
  one_segment deviceSlug = true ->
  awaited_topic (device_topic (host_topic topicRoot device) deviceSlug)
  = false ->
  Index.on_message (device_topic (host_topic topicRoot device) deviceSlug)
                   message hub w
  = (not_awaited (Index.deviceCommand deviceSlug message) ;; ret Undefined)
      hub w.
Proof.
  intros Hr Hd Hs Hawaited. unfold awaited_topic in Hawaited.
  apply orb_false_elim in Hawaited. destruct Hawaited as [Hc Ha].
  unfold Index.on_message. rewrite Hc, Ha.
  now rewrite (split_device_topic _ _ _ Hr Hd Hs).
Qed.

(** X17.  A message on [<root>/<hub>/set/device/<slug>], the three
    names being single segments, for a device the slug map has and a
    command [findAction] resolves: when the hub accepts both sends the
    handler issues exactly the press and then the release of that one
    token, fulfils, leaves no rejection unobserved and does not touch
    the host. *)
Theorem device_topic_presses_and_releases
        (topicRoot device deviceSlug payload token : string)
        (slugs : jsobj Device) (d : Device) (hub : Hub) (w : World) :
  one_segment topicRoot = true ->
  one_segment device = true ->
  one_segment deviceSlug = true ->
  awaited_topic (device_topic (host_topic topicRoot device) deviceSlug)
  = false ->
  deviceSlugs (this w) = Some slugs ->
  obj_get slugs deviceSlug = Some d ->
  Index.findAction (Own d) payload = Ok (Action token) ->
  token <> "" ->
  answer_send hub (List.length (rpcs w)) "holdAction"
              ("action=" ++ token ++ ":status=press") = Ok tt ->
  answer_send hub (S (List.length (rpcs w))) "holdAction"
              ("action=" ++ token ++ ":status=release") = Ok tt ->
  Index.on_message (device_topic (host_topic topicRoot device) deviceSlug)
                   payload hub w
  = (Ok Undefined,
     {| this := this w;
        rpcs := (rpcs w ++ [press token; release token])%list;
        published := published w;
        unhandled := unhandled w |}).
Proof.
  intros Hr Hd Hs Hawaited Hslugs Hdev Hact Htok Hpress Hrelease.
  rewrite (device_topic_is_routed _ _ _ _ _ _ Hr Hd Hs Hawaited).
  unfold Index.deviceCommand, Index.lookup_device, not_awaited, of_result.
  unfold_async. cbn in Hpress, Hrelease |- *.
  rewrite Hslugs, (proj2 (js_get_Own _ _ _) Hdev), Hact. cbn.
  destruct (String.eqb token "") eqn:E;
    [apply String.eqb_eq in E; contradiction|].
  cbn. rewrite Hpress. cbn. rewrite length_snoc, Hrelease. cbn.
  rewrite <- app_assoc. reflexivity.
Qed.

Lemma device_topic_presses_and_releases_witness :
  let token := escape_colons (func_action Sample.power_toggle) in
  Index.on_message
    (device_topic (host_topic "harmony" "harmony-hub") "living-room-tv")
    "power-toggle" Sample.healthy_hub Sample.watching
  = (Ok Undefined,
     {| this := this Sample.watching;
        rpcs := (rpcs Sample.watching ++ [press token; release token])%list;
        published := published Sample.watching;
        unhandled := unhandled Sample.watching |}).
Proof.
  cbv zeta.
  eapply (device_topic_presses_and_releases
            "harmony" "harmony-hub" "living-room-tv" "power-toggle"
            (escape_colons (func_action Sample.power_toggle))
            _ (device_of Sample.slugify Sample.tv)
            Sample.healthy_hub Sample.watching);
    try reflexivity.
  discriminate.
Defined.

(** X18.  A device whose slug ends in "command" or in "activity" cannot
    be addressed: a message on its topic is handled as a command
    request or as an activity request, with the payload as the name,
    and never reaches [deviceCommand]. *)
Theorem device_slug_shadowed_by_suffix (topic deviceSlug message : string)
        (hub : Hub) (w : World) :
  awaited_topic deviceSlug = true ->
  Index.on_message (device_topic topic deviceSlug) message hub w
  = Index.command message hub w \/
  Index.on_message (device_topic topic deviceSlug) message hub w
  = Index.startActivity message hub w.
Proof.
  unfold awaited_topic. intros H. apply orb_prop in H.
  unfold Index.on_message, device_topic.
  rewrite <- string_app_assoc.
  destruct H as [H|H];
    apply (endsWith_app (topic ++ "/set/device/")) in H.
  - left. now rewrite H.
  - destruct (endsWith _ "command"); [now left|]. right. now rewrite H.
Qed.

Lemma device_slug_shadowed_by_suffix_witness :
  awaited_topic "voice-command" = true /\
  (Index.on_message (device_topic "harmony/harmony-hub" "voice-command")
                    "power-toggle" Sample.healthy_hub Sample.watching
   = Index.command "power-toggle" Sample.healthy_hub Sample.watching \/
   Index.on_message (device_topic "harmony/harmony-hub" "voice-command")
                    "power-toggle" Sample.healthy_hub Sample.watching
   = Index.startActivity "power-toggle" Sample.healthy_hub Sample.watching).
Proof.
  split; [reflexivity|].
  apply (device_slug_shadowed_by_suffix "harmony/harmony-hub"
           "voice-command" "power-toggle" Sample.healthy_hub Sample.watching).
  reflexivity.
Defined.

(** X19.  The listener finds the device part of a topic at fixed
    positions: under a topic root of two segments no device message
    reaches [deviceCommand].  The message is handled as a command
    request when its topic ends in "command", as an activity request
    when it ends in "activity", and is ignored otherwise: nothing is
    sent and nothing changes. *)
Theorem device_topic_under_deep_root_is_ignored
        (root1 root2 device deviceSlug message : string)
        (hub : Hub) (w : World) :
  one_segment root1 = true ->
  one_segment root2 = true ->
  one_segment device = true ->
  one_segment deviceSlug = true ->
  let topic :=
    device_topic (host_topic (root1 ++ "/" ++ root2) device) deviceSlug in
  Index.on_message topic message hub w
  = if endsWith topic "command" then Index.command message hub w
    else if endsWith topic "activity" then Index.startActivity message hub w
    else (Ok Undefined, w).
Proof.
  intros H1 H2 Hd Hs topic. unfold Index.on_message.
  destruct (endsWith topic "command"); [reflexivity|].
  destruct (endsWith topic "activity"); [reflexivity|].
  unfold topic, device_topic, host_topic. rewrite !string_app_assoc.
  change ("/" ++ root2 ++ "/" ++ device ++ "/set/device/" ++ deviceSlug)
    with (String "/" (root2 ++ String "/" (device ++ String "/"
            ("set" ++ String "/" ("device" ++ String "/" deviceSlug))))).
  rewrite (split_first_segment _ _ H1), (split_first_segment _ _ H2),
    (split_first_segment _ _ Hd).
  reflexivity.
Qed.

Lemma device_topic_under_deep_root_is_ignored_witness :
  Index.on_message
    (device_topic (host_topic ("home" ++ "/" ++ "harmony") "harmony-hub")
                  "living-room-tv")
    "power-toggle" Sample.healthy_hub Sample.watching
  = (Ok Undefined, Sample.watching).
Proof.
  exact (device_topic_under_deep_root_is_ignored
           "home" "harmony" "harmony-hub" "living-room-tv" "power-toggle"
           Sample.healthy_hub Sample.watching
           eq_refl eq_refl eq_refl eq_refl).
Defined.

(* ================================================================== *)
(** * Connecting *)

Lemma poll_started_fetches (ticks : nat) (hub : Hub) (w : World) :
  let w0 := snd (Index.poll_started 0 hub w) in
  let w' := snd (Index.poll_started ticks hub w) in
  fst (Index.poll_started ticks hub w) = Ok tt /\
  rpcs w0 = (rpcs w ++ [GetCurrentActivity])%list /\
  this w0 = this w /\ published w0 = published w /\
  unhandled w0 = unhandled w /\
  (exists rest,
      rpcs w' = (rpcs w0 ++ rest)%list /\ forallb is_fetch rest = true) /\
  catalog_untouched w w'.
Proof.
  destruct ticks as [|n].
  - cbn. do 5 (split; [reflexivity|]).
    split; [|unfold catalog_untouched; now repeat split].
    exists []. now rewrite app_nil_r.
  - cbn [Index.poll_started]. unfold not_awaited.
    pose proof (poll_never_exits (S n) hub w) as Hok.
    destruct (Index.poll (S n) hub w) as [o w'] eqn:Hrun.
    cbn in Hok. subst o. cbn.
    assert (Hw' : w' = snd (Index.poll (S n) hub w)) by now rewrite Hrun.
    clear Hrun. subst w'. cbn [Index.poll]. unfold bind.
    pose proof (poll_iteration_completes hub w) as Hit.
    pose proof (tick_fetches_and_frame hub w) as Htick.
    destruct (Index.poll_iteration hub w) as [o w1]. cbn in Hit. subst o.
    cbn in Htick. destruct Htick as [Hrpcs Hframe].
    destruct (poll_fetches_and_frame n hub w1)
      as [(added & Hadd & Hfetch & _) Hframe'].
    do 5 (split; [reflexivity|]).
    split; [|eapply catalog_untouched_trans; eassumption].
    destruct Hrpcs as [Hrpcs|Hrpcs]; rewrite Hrpcs in Hadd.
    + exists added. now split.
    + exists (IsOff :: added). rewrite <- app_assoc in Hadd |- *.
      now split.
Qed.

Lemma connect_run (parameterize : string -> string) (ticks : nat)
      (hub : Hub) (w : World)
      (first second : AvailableCommands) (records : list Activity) :
  answer_getAvailableCommands hub (List.length (rpcs w)) = Ok first ->
  answer_getAvailableCommands hub (S (List.length (rpcs w))) = Ok second ->
  answer_getActivities hub (S (S (List.length (rpcs w)))) = Ok records ->
  Index.connect parameterize ticks hub w
  = (Ok tt,
     snd (Index.poll_started ticks hub
            (catalog_cached parameterize first second records w))).
Proof.
  intros H1 H2 H3.
  unfold Index.connect, Index.refresh, Index.getDevices, Index.getActivities,
    set_availableCommands, set_devices, set_deviceSlugs, set_activities.
  unfold try_catch, bind, rpc, set_state, get_this, with_this, ret, throw.
  cbn. rewrite H1. cbn. rewrite length_snoc, H2. cbn.
  rewrite !length_snoc, H3. cbn. rewrite <- !app_assoc. cbn.
  fold (activity_map records).
  match goal with
  | |- context [Index.poll_started ticks hub ?x] =>
      change x with (catalog_cached parameterize first second records w)
  end.
  pose proof (poll_started_fetches ticks hub
                (catalog_cached parameterize first second records w)) as H.
  cbv zeta in H. destruct H as [Hok _].
  destruct (Index.poll_started ticks hub
              (catalog_cached parameterize first second records w))
    as [o w']. cbn in Hok. now subst o.
Qed.

(** X20.  [connect] asks the hub for its available commands twice and
    for its activities once and, through the poll loop it starts, for
    the current activity before it resolves.  When the hub answers the
    first three, [connect] fulfils.  At that moment the host keeps the
    first answer as [availableCommands], the device and slug maps built
    from the second and the activity map built from the third (each
    record under its id); the three are merged into the state, whose
    other fields ([startingActivity] set by the constructor among them)
    keep their values; the first poll is in flight and no rejection is
    unobserved.  However many ticks the loop has completed later on, it
    has added only fetches to the calls of the hub and has left those
    maps and their copies in the state as they were. *)
Theorem connect_caches_the_catalog (parameterize : string -> string)
        (ticks : nat) (hub : Hub) (w : World)
        (first second : AvailableCommands) (records : list Activity) :
  answer_getAvailableCommands hub (List.length (rpcs w)) = Ok first ->
  answer_getAvailableCommands hub (S (List.length (rpcs w))) = Ok second ->
  answer_getActivities hub (S (S (List.length (rpcs w)))) = Ok records ->
  let w0 := snd (Index.connect parameterize 0 hub w) in
  let w' := snd (Index.connect parameterize ticks hub w) in
  let s := state (this w) in
  let s0 := state (this w0) in
  (fst (Index.connect parameterize 0 hub w) = Ok tt /\
   rpcs w0 = (rpcs w ++ [GetAvailableCommands; GetAvailableCommands;
                         GetActivities; GetCurrentActivity])%list /\
   unhandled w0 = unhandled w /\
   availableCommands (this w0) = Some first /\
   devices (this w0)
   = Some (fst (index_devices parameterize (catalog_device second))) /\
   deviceSlugs (this w0)
   = Some (snd (index_devices parameterize (catalog_device second))) /\
   activities (this w0) = Some (activity_map records) /\
   (state_availableCommands s0 = availableCommands (this w0) /\
    state_devices s0 = devices (this w0) /\
    state_activities s0 = activities (this w0)) /\
   (isOff s0 = isOff s /\ currentActivity s0 = currentActivity s /\
    startingActivity s0 = startingActivity s /\ commands s0 = commands s)) /\
  (fst (Index.connect parameterize ticks hub w) = Ok tt /\
   (exists rest,
       rpcs w' = (rpcs w0 ++ rest)%list /\ forallb is_fetch rest = true) /\
   catalog_untouched w0 w').
Proof.
  intros H1 H2 H3. cbv zeta.
  rewrite !(connect_run parameterize _ hub w first second records H1 H2 H3).
  set (wc := catalog_cached parameterize first second records w).
  destruct (poll_started_fetches ticks hub wc)
    as (_ & Hrpcs0 & Hthis0 & _ & Hun0 & Hrest & Hframe).
  cbn [fst snd] in *. split.
  - rewrite Hrpcs0, Hun0, Hthis0. unfold wc, catalog_cached. cbn.
    rewrite <- app_assoc. now repeat split.
  - split; [reflexivity|]. split; [exact Hrest|].
    unfold catalog_untouched in *. now rewrite Hthis0, Hun0.
Qed.

Lemma connect_caches_the_catalog_witness :
  rpcs Sample.connected
  = [GetAvailableCommands; GetAvailableCommands; GetActivities;
     GetCurrentActivity] /\
  startingActivity (state (this Sample.connected)) = None /\
  activities (this Sample.watching)
  = activities (this Sample.connected).
Proof.
  pose proof (connect_caches_the_catalog Sample.slugify 1 Sample.healthy_hub
                Sample.fresh Sample.catalog Sample.catalog
                [Sample.power_off; Sample.watch_tv]
                eq_refl eq_refl eq_refl) as H.
  cbv zeta in H.
  destruct H as [(_ & Hrpcs & _ & _ & _ & _ & _ & _ & _ & _ & Hstarting & _)
                 (_ & _ & Hframe)].
  split; [exact Hrpcs|]. split; [exact Hstarting|].
  exact (proj1 (proj2 (proj2 (proj2 (proj2 Hframe))))).
Defined.

(** X21.  A [connect] that the hub fails rejects with the hub's error
    without writing the state, publishing or starting the poll loop.
    It is not all-or-nothing for the host: when the second call is the
    one that fails the host already has the new available commands;
    when the activities call is the one that fails, it has the new
    available commands, devices and slugs and still its old
    activities. *)
Theorem failed_connect_keeps_the_state (parameterize : string -> string)
        (ticks : nat) (hub : Hub) (w : World) :
  let n := List.length (rpcs w) in
  let w' := snd (Index.connect parameterize ticks hub w) in
  match answer_getAvailableCommands hub n with
  | Throw e =>
      fst (Index.connect parameterize ticks hub w) = Throw e /\
      this w' = this w /\ published w' = published w /\
      rpcs w' = (rpcs w ++ [GetAvailableCommands])%list
  | Ok first =>
      match answer_getAvailableCommands hub (S n) with
      | Throw e =>
          fst (Index.connect parameterize ticks hub w) = Throw e /\
          state (this w') = state (this w) /\
          published w' = published w /\
          rpcs w' = (rpcs w ++ [GetAvailableCommands;
                                GetAvailableCommands])%list /\
          availableCommands (this w') = Some first /\
          devices (this w') = devices (this w) /\
          deviceSlugs (this w') = deviceSlugs (this w) /\
          activities (this w') = activities (this w)
      | Ok second =>
          match answer_getActivities hub (S (S n)) with
          | Throw e =>
              fst (Index.connect parameterize ticks hub w) = Throw e /\
              state (this w') = state (this w) /\
              published w' = published w /\
              rpcs w' = (rpcs w ++ [GetAvailableCommands;
                                    GetAvailableCommands;
                                    GetActivities])%list /\
              availableCommands (this w') = Some first /\
              devices (this w')
              = Some (fst (index_devices parameterize
                                         (catalog_device second))) /\
              deviceSlugs (this w')
              = Some (snd (index_devices parameterize
                                         (catalog_device second))) /\
              activities (this w') = activities (this w)
          | Ok _ => True
          end
      end
  end.
Proof.
  cbv zeta.
  unfold Index.connect, Index.refresh, Index.getDevices, Index.getActivities,
    set_availableCommands, set_devices, set_deviceSlugs, set_activities.
  unfold try_catch, bind, rpc, set_state, get_this, with_this, ret, throw.
  cbn.
  destruct (answer_getAvailableCommands hub (List.length (rpcs w)))
    as [first|e]; cbn; [|now repeat split].
  rewrite length_snoc.
  destruct (answer_getAvailableCommands hub (S (List.length (rpcs w))))
    as [second|e]; cbn; [|rewrite <- app_assoc; now repeat split].
  rewrite !length_snoc.
  destruct (answer_getActivities hub (S (S (List.length (rpcs w)))))
    as [records|e]; cbn; [exact I|].
  rewrite <- !app_assoc. now repeat split.
Qed.

(* ================================================================== *)
(** * From connecting to pressing a button *)




(* ================================================================== *)
(** * The other revisions *)

(** X23.  In part_000, while [startingActivity] is set the tick does not
    ask the hub for the current activity: it asks for [isOff] only and
    records the activity being started as the current one. *)
Theorem part000_tick_trusts_startingActivity (hub : Hub) (w : World)
        (target : string) :
  startingActivity (state (this w)) = Some target ->
  target <> "" ->
  let w' := snd (Part000.poll_iteration hub w) in
  rpcs w' = (rpcs w ++ [IsOff])%list /\
  match answer_isOff hub (List.length (rpcs w)) with
  | Ok off =>
      currentActivity (state (this w')) = Some target /\
      isOff (state (this w')) = Some off
  | Throw _ => this w' = this w
  end.
Proof.
  intros Hstart Htarget. unfold_async. cbn. rewrite Hstart. cbn.
  destruct (String.eqb target "") eqn:E;
    [apply String.eqb_eq in E; contradiction|].
  cbn. destruct (answer_isOff hub (List.length (rpcs w))) as [off|e]; cbn;
    [|now split].
  destruct (strict_eq (currentActivity (state (this w))) (Some target)); cbn;
    [now repeat split|].
  destruct (state_activities (state (this w))) as [acts|]; cbn;
    [|now repeat split].
  case_read acts target; now repeat split.
Qed.

Lemma part000_tick_trusts_startingActivity_witness :
  startingActivity (state (this Sample.starting)) = Some "30001" /\
  rpcs (snd (Part000.poll_iteration Sample.stalling_hub Sample.starting))
  = (rpcs Sample.starting ++ [IsOff])%list.
Proof.
  split; [reflexivity|].
  pose proof (part000_tick_trusts_startingActivity Sample.stalling_hub
                Sample.starting "30001" eq_refl ltac:(discriminate)) as H.
  exact (proj1 H).
Defined.

(** X24.  In part_001 a device request whose segment finds no device
    sends nothing: reading [device.commands] throws, or, when the
    segment names a member every object inherits, reading a slug from
    the [commands] that member does not have; [deviceCommand] rejects
    with that [TypeError] and the world is as before. *)
Theorem part001_unknown_device_sends_nothing
        (number_key : string -> string) (deviceSlug name : string)
        (devs : jsobj Device) (hub : Hub) (w : World) :
  devices (this w) = Some devs ->
  own (Part001.lookup_device number_key devs deviceSlug) = None ->
  exists message,
    Part001.deviceCommand number_key deviceSlug name hub w
    = (Throw (TypeError message), w).
Proof.
  intros Hdevs Hnone.
  unfold Part001.deviceCommand, Part001.findAction, get_this, of_result,
    bind, throw.
  cbn. rewrite Hdevs.
  destruct (Part001.lookup_device number_key devs deviceSlug) as [d| |];
    [discriminate| |]; cbn; eauto.
Qed.

Lemma part001_unknown_device_sends_nothing_witness :
  exists message,
    Part001.deviceCommand Sample.number_key "living-room-tv" "power-toggle"
                          Sample.healthy_hub Sample.watching
    = (Throw (TypeError message), Sample.watching).
Proof.
  eapply (part001_unknown_device_sends_nothing Sample.number_key
            "living-room-tv" "power-toggle" _
            Sample.healthy_hub Sample.watching);
    reflexivity.
Defined.
